(** * Leaderboard ingestion and rank binning of [main.py]

    A shallow embedding of the data pipeline of [main.py]:
    [download_xml], [get_leaderboard_xml], [xml_to_df], [get_leaderboard_df]
    and of the statistics computed inside [rivals2_plot] and
    [rivals2_line_plot].

    The file system and the network are explicit: a [world] holds the XML
    cache directory, the pickled data frame and the log of URLs requested;
    the Steam server is a function from URLs to responses.  Python
    exceptions are values of [exn]; a computation returns an [outcome]
    together with the world it leaves behind, because files written before
    an exception stay on disk.  Strings are the bytes of their UTF-8
    encoding, scores are int64 numbers, and what the drawing calls do is
    left to a [canvas]. *)

From Stdlib Require Import ZArith QArith Qcanon Lia Ascii String.
From Stdlib Require Floats.PrimFloat Numbers.Cyclic.Int63.Uint63.
From stdpp Require Import base gmap strings list fin_maps sorting.

Local Open Scope Z_scope.

(** ** Strings *)

Module Str.

(** A Python string is kept as the bytes of its UTF-8 encoding.
    [str.strip()] removes the Unicode whitespace: the code points 9 to 13,
    28 to 32, U+0085, U+00A0, U+1680, U+2000 to U+200A, U+2028, U+2029,
    U+202F, U+205F and U+3000.  The first ten are one byte each. *)
Definition is_space (c : ascii) : bool :=
  let n := nat_of_ascii c in
  ((9 <=? n)%nat && (n <=? 13)%nat) || ((28 <=? n)%nat && (n <=? 32)%nat).

(** U+0085 and U+00A0: the bytes C2 85 and C2 A0. *)
Definition is_space2 (c1 c2 : ascii) : bool :=
  let a := nat_of_ascii c1 in
  let b := nat_of_ascii c2 in
  (a =? 194)%nat && ((b =? 133)%nat || (b =? 160)%nat).

(** U+1680 (E1 9A 80), U+2000 to U+200A (E2 80 80 to E2 80 8A), U+2028,
    U+2029, U+202F (E2 80 A8, A9, AF), U+205F (E2 81 9F) and U+3000
    (E3 80 80). *)
Definition is_space3 (c1 c2 c3 : ascii) : bool :=
  let a := nat_of_ascii c1 in
  let b := nat_of_ascii c2 in
  let c := nat_of_ascii c3 in
  ((a =? 225)%nat && (b =? 154)%nat && (c =? 128)%nat)
  || ((a =? 226)%nat && (b =? 128)%nat
      && (((128 <=? c)%nat && (c <=? 138)%nat)
          || (c =? 168)%nat || (c =? 169)%nat || (c =? 175)%nat))
  || ((a =? 226)%nat && (b =? 129)%nat && (c =? 159)%nat)
  || ((a =? 227)%nat && (b =? 128)%nat && (c =? 128)%nat).

(** Whitespace taken off the front, for the given reading of two and of
    three bytes as one character. *)
Fixpoint strip_front (sp2 : ascii → ascii → bool)
    (sp3 : ascii → ascii → ascii → bool) (s : string) : string :=
  match s with
  | EmptyString => EmptyString
  | String c1 s1 =>
      if is_space c1 then strip_front sp2 sp3 s1
      else match s1 with
           | EmptyString => s
           | String c2 s2 =>
               if sp2 c1 c2 then strip_front sp2 sp3 s2
               else match s2 with
                    | EmptyString => s
                    | String c3 s3 =>
                        if sp3 c1 c2 c3 then strip_front sp2 sp3 s3 else s
                    end
           end
  end.

Definition lstrip (s : string) : string := strip_front is_space2 is_space3 s.

(** From the end the bytes of a character come last byte first. *)
Definition rstrip (s : string) : string :=
  String.rev (strip_front (λ c2 c1, is_space2 c1 c2)
                (λ c3 c2 c1, is_space3 c1 c2 c3) (String.rev s)).

Definition strip (s : string) : string := rstrip (lstrip s).

(** U+00A0, the no-break space, and U+3000, the ideographic space. *)
Definition nbsp : string :=
  String (ascii_of_nat 194) (String (ascii_of_nat 160) EmptyString).

Definition wide_space : string :=
  String (ascii_of_nat 227)
    (String (ascii_of_nat 128) (String (ascii_of_nat 128) EmptyString)).

End Str.

(** ** Data model *)

(** One row of the data frame: the columns the pipeline reads. *)
Record entry := Entry { rank : Z; steamid : string; score : Z }.

Global Instance entry_eq_dec : EqDecision entry.
Proof. solve_decision. Defined.

(** An element found by [xml.find(tag)]: its [.text], which is [None] for an
    element without text. *)
Definition element := option string.

(** What the XML parser makes of a leaderboard document.  [xml.find(tag)]
    is [None] when the tag is absent. *)
Record document := Document {
  entryStart : option element;
  entryEnd : option element;
  nextRequestURL : option element;
  entries : list entry
}.

(** A response body or a cached file.  The text is represented by the
    result of parsing it: [NotXml] is any text the parser rejects. *)
Inductive xml_raw := NotXml | Xml (d : document).

(** What [requests.get(url)] meets: a transport failure (no response at
    all), or a response with an HTTP status and a body. *)
Inductive response := TransportFailure | Response (status : Z) (text : xml_raw).

(** Python exceptions the pipeline can raise. *)
Inductive exn :=
| RequestException     (* requests: the transport failed *)
| ParseError           (* et.fromstring on text that is not XML *)
| AttributeError       (* .text or .strip() of None *)
| FileNotFoundError    (* open / os.listdir without the directory *)
| XMLSyntaxError       (* pd.read_xml on a file that is not XML *)
| ValueError           (* pandas: pd.cut, pd.read_xml, pd.concat *)
| NotADirectoryError   (* open: the path goes through a file *)
| IsADirectoryError    (* open: the path names a directory *)
| OSError              (* open: a file name or a path too long *)
| PathLeavesCache      (* no exception: see [write_file] *)
| DrawingError.        (* whatever a drawing call raises *)

Global Instance exn_eq_dec : EqDecision exn.
Proof. solve_decision. Defined.

Inductive outcome (A : Type) :=
| Ok (a : A)
| Raise (e : exn)
| OutOfFuel.
Arguments Ok {A} a.
Arguments Raise {A} e.
Arguments OutOfFuel {A}.

(** The state the pipeline reads and writes.  [xml_cache = None] means the
    directory [./cache/xml] does not exist; otherwise it maps file names to
    file contents.  [df_cache] is the file [./cache/df.pkl].  [requests]
    logs the URL of every [requests.get], oldest first. *)
Record world := World {
  xml_cache : option (gmap string xml_raw);
  df_cache : option (list entry);
  requests : list string
}.

(** [os.listdir] enumerates a directory in an order of the file system's
    choosing: any function that lists every file name once. *)
Record dir_enum := DirEnum {
  enum :> gmap string xml_raw → list string;
  enum_perm : ∀ m, enum m ≡ₚ (map_to_list m).*1
}.

Program Definition storage_order : dir_enum :=
  {| enum := λ m, (map_to_list m).*1 |}.
Next Obligation. done. Qed.

(** ** The state-and-exception monad *)

Definition M (A : Type) : Type := world → outcome A * world.

Definition ret {A} (a : A) : M A := λ w, (Ok a, w).
Definition raise {A} (e : exn) : M A := λ w, (Raise e, w).
Definition out_of_fuel {A} : M A := λ w, (OutOfFuel, w).

Definition bind {A B} (m : M A) (k : A → M B) : M B := λ w,
  match m w with
  | (Ok a, w') => k a w'
  | (Raise e, w') => (Raise e, w')
  | (OutOfFuel, w') => (OutOfFuel, w')
  end.

Notation "'let*' x ':=' m 'in' k" := (bind m (λ x, k))
  (at level 10, x name, m at level 100, k at level 200, only parsing).
Notation "m >> k" := (bind m (λ _, k))
  (at level 100, k at level 200, right associativity, only parsing).

(** ** Constants of [main.py] *)

Definition XML_CACHE : string := "./cache/xml/".

Definition GAME_ID : string := "2217000".
Definition LEADERBOARD_ID : string := "14800950".

Definition first_url : string :=
  "https://steamcommunity.com/stats/" +:+ GAME_ID +:+ "/leaderboards/"
  +:+ LEADERBOARD_ID +:+ "/?xml=1".

(** The file written for a page, inside [XML_CACHE]:
    [f'{XML_CACHE}/{start}-{end}.xml']. *)
Definition page_file (start end_ : string) : string :=
  start +:+ "-" +:+ end_ +:+ ".xml".

(** ** Paths *)

(** The components of a path: the texts between its slashes. *)
Fixpoint components (path : string) : list string :=
  match path with
  | EmptyString => [EmptyString]
  | String c rest =>
      if Ascii.eqb c "/" then EmptyString :: components rest
      else match components rest with
           | cur :: more => String c cur :: more
           | [] => [String c EmptyString]
           end
  end.

(** The longest file name the file system takes, in bytes, and the
    length, with its end mark, that no path may reach. *)
Definition NAME_MAX : nat := 255.
Definition PATH_MAX : nat := 4096.

(** The components that name the directory they are met in. *)
Definition stays (c : string) : bool :=
  bool_decide (c = EmptyString) || bool_decide (c = "."%string).

(** Where [open(path, 'w')] ends for a path relative to the cache
    directory [dir], which holds files only: at a file of the directory,
    created or overwritten, or at an error.  An empty component and [.]
    stay in the directory; any other component before the last would have
    to be a directory.  (The paths resolved end in [.xml], never in a
    slash.) *)
Fixpoint resolve (dir : gmap string xml_raw) (cs : list string) : exn + string :=
  match cs with
  | [] => inl IsADirectoryError
  | [c] =>
      if stays c || bool_decide (c = ".."%string) then inl IsADirectoryError
      else if (NAME_MAX <? String.length c)%nat then inl OSError
      else inr c
  | c :: rest =>
      if stays c then resolve dir rest
      else if bool_decide (c = ".."%string) then inl PathLeavesCache
      else if (NAME_MAX <? String.length c)%nat then inl OSError
      else match dir !! c with
           | Some _ => inl NotADirectoryError
           | None => inl FileNotFoundError
           end
  end.

(** A name that [open] takes for a file of the cache directory itself:
    one component, not too long, not a name of the directory.  The path
    of such a name, [XML_CACHE] with a slash and at most [NAME_MAX] bytes,
    is far from [PATH_MAX]. *)
Definition file_name_ok (name : string) : bool :=
  match components name with
  | [c] => negb (stays c) && negb (bool_decide (c = ".."%string))
           && (String.length c <=? NAME_MAX)%nat
  | _ => false
  end.

(** ** Ingestion *)

Section Ingest.

Variable server : string → response.
Variable listdir : dir_enum.

(** [requests.get(url).text]: the status of a response is not looked at. *)
Definition requests_get_text (url : string) : M xml_raw := λ w,
  let w' := {| xml_cache := xml_cache w; df_cache := df_cache w;
               requests := requests w ++ [url] |} in
  match server url with
  | TransportFailure => (Raise RequestException, w')
  | Response _ text => (Ok text, w')
  end.

(** [et.fromstring(xml_raw)] *)
Definition et_fromstring (raw : xml_raw) : M document :=
  match raw with
  | NotXml => raise ParseError
  | Xml d => ret d
  end.

(** [e.text.strip()] for [e = xml.find(tag)] *)
Definition text_strip (e : option element) : M string :=
  match e with
  | Some (Some s) => ret (Str.strip s)
  | _ => raise AttributeError
  end.

(** [with open(f'{XML_CACHE}/{name}', 'w') as file: file.write(raw)], on a
    POSIX file system with UTF-8 as its encoding.  A path of [PATH_MAX]
    bytes or more is refused before it is looked at.  The name is part of
    the path, so [open] follows its slashes from the cache directory
    ([resolve]); without the directory every path fails.  A path that
    climbs out of the directory ends where the [world] does not reach: the
    model does not follow such a run and marks it with
    [PathLeavesCache]. *)
Definition write_file (name : string) (raw : xml_raw) : M unit := λ w,
  if (PATH_MAX <=? String.length (XML_CACHE +:+ "/" +:+ name))%nat
  then (Raise OSError, w)
  else
    match xml_cache w with
    | None => (Raise FileNotFoundError, w)
    | Some dir =>
        match resolve dir (components name) with
        | inr file =>
            (Ok tt, {| xml_cache := Some (<[file := raw]> dir);
                       df_cache := df_cache w; requests := requests w |})
        | inl e => (Raise e, w)
        end
    end.

(** The [while next_url is not None] loop of [download_xml].  One unit of
    fuel is spent per iteration; a server whose pages never stop linking
    forward exhausts any amount. *)
Fixpoint download_loop (fuel : nat) (next_url : option string) : M unit :=
  match next_url with
  | None => ret tt
  | Some url =>
      match fuel with
      | O => out_of_fuel
      | S fuel' =>
          let* raw := requests_get_text url in
          let* xml := et_fromstring raw in
          let* start := text_strip (entryStart xml) in
          let* end_ := text_strip (entryEnd xml) in
          write_file (page_file start end_) raw >>
          let* next := match nextRequestURL xml with
                       | Some e => let* s := text_strip (Some e) in ret (Some s)
                       | None => ret None
                       end in
          download_loop fuel' next
      end
  end.

Definition download_xml (fuel : nat) : M unit :=
  download_loop fuel (Some first_url).

(** [os.makedirs(os.path.dirname(XML_CACHE), exist_ok=True)] *)
Definition makedirs : M unit := λ w,
  match xml_cache w with
  | Some _ => (Ok tt, w)
  | None => (Ok tt, {| xml_cache := Some ∅; df_cache := df_cache w;
                       requests := requests w |})
  end.

(** [os.listdir(XML_CACHE)] *)
Definition os_listdir : M (list string) := λ w,
  match xml_cache w with
  | None => (Raise FileNotFoundError, w)
  | Some dir => (Ok (listdir dir), w)
  end.

Definition get_leaderboard_xml (fuel : nat) : M unit :=
  makedirs >>
  let* names := os_listdir in
  if (length names =? 0)%nat then download_xml fuel else ret tt.

(** [pd.read_xml(file_path, xpath='.//entry')]: the rows of the file's
    [entry] elements; pandas raises when the xpath selects nothing. *)
Definition read_xml (name : string) : M (list entry) := λ w,
  match xml_cache w with
  | None => (Raise FileNotFoundError, w)
  | Some dir =>
      match dir !! name with
      | None => (Raise FileNotFoundError, w)
      | Some NotXml => (Raise XMLSyntaxError, w)
      | Some (Xml d) =>
          match entries d with
          | [] => (Raise ValueError, w)
          | es => (Ok es, w)
          end
      end
  end.

(** The [for file_name in os.listdir(XML_CACHE)] loop of [xml_to_df]. *)
Fixpoint read_all (names : list string) : M (list (list entry)) :=
  match names with
  | [] => ret []
  | name :: rest =>
      let* df := read_xml name in
      let* dfs := read_all rest in
      ret (df :: dfs)
  end.

(** [pd.concat(all_dfs, ignore_index=True)] *)
Definition pd_concat (all_dfs : list (list entry)) : M (list entry) :=
  match all_dfs with
  | [] => raise ValueError
  | _ => ret (concat all_dfs)
  end.

Definition xml_to_df (fuel : nat) : M (list entry) :=
  get_leaderboard_xml fuel >>
  let* names := os_listdir in
  let* all_dfs := read_all names in
  pd_concat all_dfs.

(** [df.to_pickle(DF_CACHE)] *)
Definition to_pickle (df : list entry) : M unit := λ w,
  (Ok tt, {| xml_cache := xml_cache w; df_cache := Some df;
             requests := requests w |}).

Definition get_leaderboard_df (fuel : nat) : M (list entry) := λ w,
  match df_cache w with
  | Some df => (Ok df, w)
  | None =>
      (let* df := xml_to_df fuel in
       to_pickle df >>
       ret df) w
  end.

End Ingest.

Arguments write_file : simpl never.

(** ** Pages and fetch sequences *)

(** A page document that [download_xml] accepts: both range texts are
    there, and the next-page element, when present, has text. *)
Record page := Page {
  range_start : string;
  range_end : string;
  next_locator : option string;
  rows : list entry
}.

Definition page_doc (p : page) : document :=
  {| entryStart := Some (Some (range_start p));
     entryEnd := Some (Some (range_end p));
     nextRequestURL := Some <$> next_locator p;
     entries := rows p |}.

(** The rows [pd.read_xml] finds in a file. *)
Definition file_rows (raw : xml_raw) : list entry :=
  match raw with
  | Xml d => entries d
  | NotXml => []
  end.

(** The name of the file that holds page [p]. *)
Definition page_key (p : page) : string :=
  page_file (Str.strip (range_start p)) (Str.strip (range_end p)).

(** The locator the loop holds after page [p]. *)
Definition advance (p : page) : option string := Str.strip <$> next_locator p.

(** The cache directory after the pages were written, in order. *)
Definition save_pages (dir : gmap string xml_raw) (ps : list page)
  : gmap string xml_raw :=
  foldl (λ d p, <[page_key p := Xml (page_doc p)]> d) dir ps.

(** The URLs requested while fetching [ps] from locator [loc]: the first
    locator, then the next locator of each page. *)
Fixpoint locators (loc : option string) (ps : list page) : list string :=
  match loc, ps with
  | Some url, p :: ps' => url :: locators (advance p) ps'
  | _, _ => []
  end.

(** [page_chain server loc ps final]: following the locators from [loc],
    the server returns the pages [ps], whatever the HTTP status it sends
    them with, and [final] is the locator after the last of them. *)
Inductive page_chain (server : string → response)
  : option string → list page → option string → Prop :=
| chain_nil loc : page_chain server loc [] loc
| chain_cons url status p ps final :
    server url = Response status (Xml (page_doc p)) →
    page_chain server (advance p) ps final →
    page_chain server (Some url) (p :: ps) final.

(** The [.text] of what [requests.get] returns, when it returns. *)
Definition response_text (r : response) : option xml_raw :=
  match r with
  | TransportFailure => None
  | Response _ text => Some text
  end.

(** Why the fetch of a page fails before anything is written: no response,
    a body that is not XML, or a document without range texts. *)
Definition fetch_error (r : response) : option exn :=
  match r with
  | TransportFailure => Some RequestException
  | Response _ NotXml => Some ParseError
  | Response _ (Xml d) =>
      match entryStart d, entryEnd d with
      | Some (Some _), Some (Some _) => None
      | _, _ => Some AttributeError
      end
  end.

(** ** Numbers *)

(** The value of a float64 as a number, rounding left aside: an exact
    rational, an infinity, or NaN.  Computing with these values tells
    which results are NaN, infinite or finite, and what a finite result
    is up to rounding; the floats themselves, rounded after each
    operation, are computed in [Binary64] below. *)
Inductive npfloat := Fin (q : Qc) | PosInf | NegInf | NaN.

Global Instance npfloat_eq_dec : EqDecision npfloat.
Proof. solve_decision. Defined.

Definition Qc_of_nat (n : nat) : Qc := Qc_of_Z (Z.of_nat n).

(** [a / b] on two counts: numpy divides by zero without raising. *)
Definition np_truediv (a b : nat) : npfloat :=
  match b, a with
  | O, O => NaN
  | O, S _ => PosInf
  | S _, _ => Fin (Qc_of_nat a / Qc_of_nat b)%Qc
  end.

(** [x * k] for an integer constant [k]. *)
Definition np_mul (x : npfloat) (k : Z) : npfloat :=
  match x with
  | Fin q => Fin (q * Qc_of_Z k)%Qc
  | PosInf => if 0 <? k then PosInf else if k <? 0 then NegInf else NaN
  | NegInf => if 0 <? k then NegInf else if k <? 0 then PosInf else NaN
  | NaN => NaN
  end.

Definition np_add (x y : npfloat) : npfloat :=
  match x, y with
  | NaN, _ | _, NaN => NaN
  | Fin p, Fin q => Fin (p + q)%Qc
  | PosInf, NegInf | NegInf, PosInf => NaN
  | PosInf, _ | _, PosInf => PosInf
  | NegInf, _ | _, NegInf => NegInf
  end.

(** [sum(xs)] *)
Definition np_sum (xs : list npfloat) : npfloat := foldr np_add (Fin 0%Qc) xs.

(** ** Binning *)

(** The [score] column is an int64 column, and numpy adds int64 numbers
    modulo 2^64. *)
Definition INT64_MIN : Z := - 2 ^ 63.
Definition INT64_MAX : Z := 2 ^ 63 - 1.

Definition wrap64 (z : Z) : Z := (z - INT64_MIN) mod 2 ^ 64 + INT64_MIN.

(** [a + b] on int64 *)
Definition int64_add (a b : Z) : Z := wrap64 (a + b).

(** [series.max()]: NaN ([None]) on an empty series. *)
Definition series_max (xs : list Z) : option Z :=
  match xs with
  | [] => None
  | x :: rest => Some (foldl Z.max x rest)
  end.

(** A bin edge: an integer, or NaN ([None]). *)
Definition edge := option Z.

(** How [pd.cut] tests that the bins increase.  pandas up to 2.0 raises
    when [np.diff(bins) < 0] holds somewhere, which a NaN edge never makes
    true; from 2.1 on it raises unless [Index(bins).is_monotonic_increasing],
    which a NaN edge makes false. *)
Inductive bins_check := DiffNotNegative | MonotonicIndex.

(** No difference of neighbours is negative. *)
Fixpoint diff_not_negative (bins : list edge) : bool :=
  match bins with
  | a :: (b :: _) as rest =>
      match a, b with
      | Some x, Some y => (x <=? y) && diff_not_negative rest
      | _, _ => diff_not_negative rest
      end
  | _ => true
  end.

(** [Index(bins).is_monotonic_increasing] *)
Fixpoint is_monotonic_increasing (bins : list edge) : bool :=
  match bins with
  | [] => true
  | None :: _ => false
  | Some x :: rest =>
      match rest with
      | [] => true
      | None :: _ => false
      | Some y :: _ => (x <=? y) && is_monotonic_increasing rest
      end
  end.

Definition bins_increase (chk : bins_check) (bins : list edge) : bool :=
  match chk with
  | DiffNotNegative => diff_not_negative bins
  | MonotonicIndex => is_monotonic_increasing bins
  end.

(** [bins.searchsorted(x, side='right')] on increasing bins: the number of
    leading edges that are [<= x]; NaN sorts last. *)
Fixpoint searchsorted_right (bins : list edge) (x : Z) : nat :=
  match bins with
  | Some b :: rest => if b <=? x then S (searchsorted_right rest x) else O
  | _ => O
  end.

(** The category code [pd.cut] gives a value: [None] is NaN, the value
    lies outside every bin. *)
Definition bin_code (bins : list edge) (x : Z) : option nat :=
  let ids := searchsorted_right bins x in
  if (ids =? 0)%nat || (ids =? length bins)%nat then None
  else Some (ids - 1)%nat.

(** [pd.cut(x, bins=bins, labels=labels, right=False)] *)
Definition pd_cut (chk : bins_check) (x : list Z) (bins : list edge)
    (labels : list string) : outcome (list (option nat)) :=
  if negb (bins_increase chk bins) then Raise ValueError
  else if (length (remove_dups bins) <? length bins)%nat
          && negb (length bins =? 2)%nat then Raise ValueError
  else if negb (length (remove_dups labels) =? length labels)%nat
       then Raise ValueError
  else if negb (length labels =? length bins - 1)%nat then Raise ValueError
  else Ok (bin_code bins <$> x).

(** [ranked_bins.value_counts().reindex(bin_labels)]: for each label, in
    the order of [bin_labels], the number of values of that category;
    values without a category are not counted. *)
Definition value_counts_reindex (bin_labels : list string)
    (ranked_bins : list (option nat)) : list nat :=
  imap (λ i _, length (filter (λ c, c = Some i) ranked_bins)) bin_labels.

(** The counting part shared by [rivals2_plot] and [rivals2_line_plot],
    for the lower bounds and labels each of them fixes:
    [bin_edges = [*lower_bounds, combined_df['score'].max() + 1]].  The
    maximum of an int64 column is an int64, and so is its sum with 1: at
    the largest int64 the last edge is the smallest. *)
Definition rank_counts (chk : bins_check) (lower_bounds : list Z)
    (bin_labels : list string) (scores : list Z) : outcome (list nat) :=
  let bin_edges :=
    (Some <$> lower_bounds) ++ [(λ m, int64_add m 1) <$> series_max scores] in
  match pd_cut chk scores bin_edges bin_labels with
  | Ok ranked_bins => Ok (value_counts_reindex bin_labels ranked_bins)
  | Raise e => Raise e
  | OutOfFuel => OutOfFuel
  end.

(** [rank_counts.sum()] *)
Definition total_players (rank_counts : list nat) : nat := foldr Nat.add O rank_counts.

(** *** [rivals2_plot] *)

Definition plot_lower_bounds : list Z :=
  [0; 400; 500; 600; 700; 800; 900; 1000; 1100; 1200; 1300; 1400; 1500].

Definition plot_labels : list string :=
  ["Stone 0-399"; "Stone 400-499"; "Bronze 500-599"; "Bronze 600-699";
   "Silver 700-799"; "Silver 800-899"; "Gold 900-999"; "Gold 1000-1099";
   "Plat 1100-1199"; "Plat 1200-1299"; "Diamond 1300-1399";
   "Diamond 1400-1499"; "Master 1500+"]%string.

(** [(height / total_players) * 100 if total_players else 0] *)
Definition plot_percentage (height total : nat) : npfloat :=
  if (total =? 0)%nat then Fin 0%Qc else np_mul (np_truediv height total) 100.

(** What [rivals2_plot] computes for a bar: label, count and percentage
    (the text is drawn on bars of positive height only). *)
Record bar := Bar { bar_label : string; bar_count : nat; bar_percentage : npfloat }.

Definition bars (bin_labels : list string) (counts : list nat) : list bar :=
  let total := total_players counts in
  zip_with (λ l c, Bar l c (plot_percentage c total)) bin_labels counts.

(** The statistics of [rivals2_plot], for any bounds and labels in place
    of the ones it fixes; the drawing is left out here, [main] below has
    it. *)
Definition rivals2_plot_with (chk : bins_check) (lower_bounds : list Z)
    (bin_labels : list string) (combined_df : list entry) : outcome (list bar) :=
  match rank_counts chk lower_bounds bin_labels (score <$> combined_df) with
  | Ok counts => Ok (bars bin_labels counts)
  | Raise e => Raise e
  | OutOfFuel => OutOfFuel
  end.

Definition rivals2_plot (chk : bins_check) : list entry → outcome (list bar) :=
  rivals2_plot_with chk plot_lower_bounds plot_labels.

(** *** [rivals2_line_plot] *)

Definition line_lower_bounds : list Z := [0; 500; 700; 900; 1100; 1300; 1500].

Definition line_labels : list string :=
  ["Stone"; "Bronze"; "Silver"; "Gold"; "Platinum"; "Diamond"; "Master"]%string.

(** [series.cumsum()] *)
Fixpoint cumsum_from (acc : nat) (xs : list nat) : list nat :=
  match xs with
  | [] => []
  | x :: rest => (acc + x)%nat :: cumsum_from (acc + x)%nat rest
  end.

Definition cumsum (xs : list nat) : list nat := cumsum_from O xs.

(** [(rank_counts[label] / total_players) * 100] *)
Definition line_percentage (count total : nat) : npfloat :=
  np_mul (np_truediv count total) 100.

(** [rank_counts[::-1].cumsum()[::-1] / total_players * 100] *)
Definition cumulative_top_percentage (counts : list nat) : list npfloat :=
  let total := total_players counts in
  (λ s, np_mul (np_truediv s total) 100) <$> rev (cumsum (rev counts)).

(** What [rivals2_line_plot] writes on a division: label, count,
    percentage and cumulative top percentage. *)
Record division := Division {
  div_label : string;
  div_count : nat;
  div_percentage : npfloat;
  div_top : npfloat
}.

Definition divisions (bin_labels : list string) (counts : list nat) : list division :=
  let total := total_players counts in
  zip_with (λ l ct, Division l ct.1 (line_percentage ct.1 total) ct.2)
    bin_labels (zip counts (cumulative_top_percentage counts)).

(** The statistics of [rivals2_line_plot], likewise. *)
Definition rivals2_line_plot_with (chk : bins_check) (lower_bounds : list Z)
    (bin_labels : list string) (combined_df : list entry)
  : outcome (list division) :=
  match rank_counts chk lower_bounds bin_labels (score <$> combined_df) with
  | Ok counts => Ok (divisions bin_labels counts)
  | Raise e => Raise e
  | OutOfFuel => OutOfFuel
  end.

Definition rivals2_line_plot (chk : bins_check)
  : list entry → outcome (list division) :=
  rivals2_line_plot_with chk line_lower_bounds line_labels.

(** Bounds as the specification wants them: each below the next. *)
Fixpoint strictly_increasing (bounds : list Z) : bool :=
  match bounds with
  | a :: (b :: _) as rest => (a <? b) && strictly_increasing rest
  | _ => true
  end.

(** The suffix sums the specification asks for:
    [sum(percentage[j] for j >= i)] for each position [i]. *)
Fixpoint suffix_sums (percentage : list npfloat) : list npfloat :=
  match percentage with
  | [] => []
  | p :: rest => np_sum (p :: rest) :: suffix_sums rest
  end.

(** The suffix sums of the counts: [sum(count[j] for j >= i)] for each
    position [i]. *)
Fixpoint suffix_counts (counts : list nat) : list nat :=
  match counts with
  | [] => []
  | c :: rest => total_players (c :: rest) :: suffix_counts rest
  end.

(** ** The percentages in binary64

    [npfloat] gives the value of a percentage as a number; the floats that
    numpy holds are these values rounded after each operation.  The same
    computations in IEEE binary64: *)
Module Binary64.

(** An int64 count as a float64. *)
Definition of_count (n : Z) : PrimFloat.float :=
  PrimFloat.of_uint63 (Uint63.of_Z n).

(** [count / total * 100] *)
Definition percentage (count total : Z) : PrimFloat.float :=
  PrimFloat.mul (PrimFloat.div (of_count count) (of_count total)) (of_count 100).

(** [sum(xs)], from the left, starting at 0 *)
Definition sum (xs : list PrimFloat.float) : PrimFloat.float :=
  foldl PrimFloat.add (of_count 0) xs.

(** [(rank_counts[label] / total_players) * 100] for each label *)
Definition line_percentages (counts : list nat) : list PrimFloat.float :=
  let total := total_players counts in
  (λ c, percentage (Z.of_nat c) (Z.of_nat total)) <$> counts.

(** [rank_counts[::-1].cumsum()[::-1] / total_players * 100] *)
Definition cumulative_top_percentage (counts : list nat) : list PrimFloat.float :=
  let total := total_players counts in
  (λ s, percentage (Z.of_nat s) (Z.of_nat total)) <$> rev (cumsum (rev counts)).

(** [sum(percentage[j] for j >= i)] for each position [i] *)
Fixpoint suffix_sums (percentage : list PrimFloat.float) : list PrimFloat.float :=
  match percentage with
  | [] => []
  | p :: rest => sum (p :: rest) :: suffix_sums rest
  end.

End Binary64.

(** ** A small leaderboard *)

(** Two pages of two players each; the first links to the second with
    blanks around the URL, as the Steam documents have them. *)
Module Example.

Definition second_url : string := "https://steamcommunity.com/next".

Definition page1 : page :=
  {| range_start := "1"; range_end := "2";
     next_locator := Some (" " +:+ second_url +:+ " ");
     rows := [Entry 1 "76561190000000001" 10; Entry 2 "76561190000000002" 20] |}.

Definition page2 : page :=
  {| range_start := "3"; range_end := "4";
     next_locator := None;
     rows := [Entry 3 "76561190000000003" 30; Entry 4 "76561190000000004" 5] |}.

(** A server that has both pages. *)
Definition healthy (url : string) : response :=
  if decide (url = first_url) then Response 200 (Xml (page_doc page1))
  else if decide (url = second_url) then Response 200 (Xml (page_doc page2))
  else TransportFailure.

(** A server whose connection drops at the second page. *)
Definition dropping (url : string) : response :=
  if decide (url = first_url) then Response 200 (Xml (page_doc page1))
  else TransportFailure.

(** A server that sends the one page it has with status 503. *)
Definition unavailable (url : string) : response :=
  Response 503 (Xml (page_doc page2)).

(** No cache directory, no pickle, nothing requested yet. *)
Definition fresh : world :=
  {| xml_cache := None; df_cache := None; requests := [] |}.

(** An empty cache directory. *)
Definition empty_dir : world :=
  {| xml_cache := Some ∅; df_cache := None; requests := [] |}.

(** A cache directory left with one file of an interrupted run. *)
Definition partial : world :=
  {| xml_cache := Some {["1-2.xml" := Xml (page_doc page1)]};
     df_cache := None; requests := [] |}.

End Example.

(** ** The rest of [rivals2_line_plot] *)

(** [combined_df['score'].value_counts().sort_index()]: the distinct
    scores in increasing order, each with the number of rows that have it.
    These are the points [x], [y] of the plotted line. *)
Definition score_counts (scores : list Z) : list (Z * nat) :=
  (λ x, (x, length (filter (λ y, y = x) scores)))
    <$> merge_sort Z.le (remove_dups scores).

(** [max(y)]: the builtin raises on an empty sequence. *)
Definition py_max (ys : list nat) : outcome nat :=
  match ys with
  | [] => Raise ValueError
  | y :: rest => Ok (foldl Nat.max y rest)
  end.

(** [rivals2_line_plot] up to the texts of its divisions: the statistics
    and [max(y)], which the loop over the divisions needs for the height
    of each text ([max(y) * 0.9]).  The calls that only draw are left
    out here; [main] below has them. *)
Definition rivals2_line_plot_texts (chk : bins_check) (combined_df : list entry)
  : outcome (list division * nat) :=
  match rivals2_line_plot chk combined_df with
  | Ok ds =>
      match py_max ((score_counts (score <$> combined_df)).*2) with
      | Ok top => Ok (ds, top)
      | Raise e => Raise e
      | OutOfFuel => OutOfFuel
      end
  | Raise e => Raise e
  | OutOfFuel => OutOfFuel
  end.

(** ** [generate_leaderboard] *)

(** A line of the leaderboard: the columns [rank], [name], [score]. *)
Record row := Row { row_rank : Z; row_name : string; row_score : Z }.

Global Instance row_eq_dec : EqDecision row.
Proof. solve_decision. Defined.

(** [df[['rank', 'steamid', 'score']]] with [steamid] renamed to [name]. *)
Definition select_rename (e : entry) : row :=
  {| row_rank := rank e; row_name := steamid e; row_score := score e |}.

(** [sort_values(by='rank')] sorts with quicksort, which may put rows of
    equal rank in any order: any function that returns its rows, all of
    them, in the order of their ranks. *)
Record row_sort := RowSort {
  sort_rows :> list row → list row;
  sort_rows_perm : ∀ l, sort_rows l ≡ₚ l;
  sort_rows_sorted :
    ∀ l, StronglySorted (λ a b, row_rank a ≤ row_rank b)%Z (sort_rows l)
}.

Global Instance row_rank_le_dec : RelDecision (λ a b, row_rank a ≤ row_rank b)%Z.
Proof. intros a b. apply _. Defined.

Program Definition merge_sort_rows : row_sort :=
  {| sort_rows := merge_sort (λ a b, row_rank a ≤ row_rank b)%Z |}.
Next Obligation. intros l. apply merge_sort_Permutation. Qed.
Next Obligation.
  intros l. apply StronglySorted_merge_sort.
  - intros a b c ? ?. lia.
  - intros a b. lia.
Qed.

(** The file [leaderboard_output.csv] as [to_csv(index=False)] writes it. *)
Record csv := Csv { csv_header : list string; csv_lines : list row }.

(** The leaderboard returned, and the file written on the way. *)
Definition generate_leaderboard (sort_values : row_sort) (df : list entry)
  : list row * csv :=
  let leaderboard := sort_values (select_rename <$> df) in
  (leaderboard,
   {| csv_header := ["rank"; "name"; "score"]%string; csv_lines := leaderboard |}).

(** ** The program *)

Definition lift {A} (o : outcome A) : M A := λ w, (o, w).

(** What the plots hand to matplotlib and numpy, in the order of the
    calls: the histogram with its texts (lines 114 to 160); the line
    through the points [x], [y] and the first shaded area (lines 201 to
    215), which come before [max(y)] is first evaluated; the texts of the
    divisions at the height [max(y) * 0.9], the axes with their ticks
    [np.arange(0, max(x) + 1, 100)], the legend and the picture file
    (lines 216 to 248). *)
Inductive drawing :=
| Histogram (bs : list bar)
| Line (points : list (Z * nat))
| Divisions (ds : list division) (top : nat).

(** Whether a drawing comes about depends on the display, the fonts and
    the memory at hand: a canvas tells for each drawing whether it does. *)
Definition canvas := drawing → bool.

Definition draw (cv : canvas) (d : drawing) : M unit := λ w,
  if cv d then (Ok tt, w) else (Raise DrawingError, w).

(** [if __name__ == '__main__']: the data frame, the two plots, the
    table.  The result is the CSV file written at the end. *)
Definition main (cv : canvas) (chk : bins_check) (sort_values : row_sort)
    (server : string → response) (listdir : dir_enum) (fuel : nat) : M csv :=
  let* df := get_leaderboard_df server listdir fuel in
  let* bs := lift (rivals2_plot chk df) in
  draw cv (Histogram bs) >>
  let points := score_counts (score <$> df) in
  let* ds := lift (rivals2_line_plot chk df) in
  draw cv (Line points) >>
  let* top := lift (py_max points.*2) in
  draw cv (Divisions ds top) >>
  ret (generate_leaderboard sort_values df).2.

(** The drawings [main] asks for on a data frame come about. *)
Definition drawn (cv : canvas) (chk : bins_check) (df : list entry) : Prop :=
  ∀ bs ds top,
    rivals2_plot chk df = Ok bs →
    rivals2_line_plot_texts chk df = Ok (ds, top) →
    cv (Histogram bs) = true
    ∧ cv (Line (score_counts (score <$> df))) = true
    ∧ cv (Divisions ds top) = true.

(** ** Notions for statements about the statistics *)

(** The number of scores in the interval from [a] to [b], [b] left out. *)
Definition count_between (a b : Z) (scores : list Z) : nat :=
  length (filter (λ x, a ≤ x < b)%Z scores).


(** One finite number is at most another. *)
Definition np_le (x y : npfloat) : Prop :=
  match x, y with
  | Fin p, Fin q => (p ≤ q)%Qc
  | _, _ => False
  end.

(** ** More servers and caches *)

Module Sample.


(** A last page that reports the range of [Example.page1], with a
    no-break space and a blank around it. *)
Definition page1_again : page :=
  {| range_start := Str.nbsp +:+ "1"; range_end := "2 ";
     next_locator := None;
     rows := [Entry 1 "76561190000000009" 99] |}.

(** A server whose two pages report the same range. *)
Definition repeating (url : string) : response :=
  if decide (url = first_url) then Response 200 (Xml (page_doc Example.page1))
  else Response 200 (Xml (page_doc page1_again)).

(** A document whose next-page element is there but empty. *)
Definition empty_next : document :=
  {| entryStart := Some (Some "1"); entryEnd := Some (Some "2");
     nextRequestURL := Some None;
     entries := rows Example.page1 |}.

Definition dangling (url : string) : response := Response 200 (Xml empty_next).

(** A server that is down. *)
Definition down (url : string) : response := TransportFailure.

(** A page whose range has a slash in it, and a server that sends it. *)
Definition page_slash : page :=
  {| range_start := "1/2"; range_end := "3";
     next_locator := None;
     rows := rows Example.page1 |}.

Definition slashed (url : string) : response :=
  Response 200 (Xml (page_doc page_slash)).

(** A page whose range is 4100 digits long, and a server that sends
    it. *)
Definition page_long : page :=
  {| range_start := string_of_list_ascii (replicate 4100 "7"%char);
     range_end := "2";
     next_locator := None;
     rows := rows Example.page1 |}.

Definition longwinded (url : string) : response :=
  Response 200 (Xml (page_doc page_long)).




End Sample.

(** ** A leaderboard with a Master *)

Module Ladder.

Definition second_url : string := "https://steamcommunity.com/ladder/2".

Definition page1 : page :=
  {| range_start := "1"; range_end := "2";
     next_locator := Some second_url;
     rows := [Entry 1 "76561190000000011" 1612; Entry 2 "76561190000000012" 1204] |}.

Definition page2 : page :=
  {| range_start := "3"; range_end := "4";
     next_locator := None;
     rows := [Entry 3 "76561190000000013" 873; Entry 4 "76561190000000014" 455] |}.

Definition server (url : string) : response :=
  if decide (url = first_url) then Response 200 (Xml (page_doc page1))
  else if decide (url = second_url) then Response 200 (Xml (page_doc page2))
  else TransportFailure.

(** A canvas on which every drawing comes about. *)
Definition easel : canvas := λ _, true.

(** A canvas without room for the axes of the line plot. *)
Definition cramped : canvas := λ d,
  match d with
  | Divisions _ _ => false
  | _ => true
  end.

End Ladder.

(** ** Facts about ingestion *)

Section IngestFacts.

Variable server : string → response.
Variable listdir : dir_enum.

Lemma listdir_empty : listdir ∅ = [].
Proof.
  apply Permutation_nil_r. rewrite (enum_perm listdir ∅).
  by rewrite map_to_list_empty.
Qed.

Lemma listdir_length (m : gmap string xml_raw) :
  length (listdir m) = size m.
Proof.
  rewrite (enum_perm listdir m), length_fmap. by rewrite length_map_to_list.
Qed.

Lemma listdir_nonempty (m : gmap string xml_raw) :
  m ≠ ∅ → (length (listdir m) =? 0)%nat = false.
Proof.
  intros Hm. rewrite listdir_length. apply Nat.eqb_neq.
  intros Hsz. by apply map_size_empty_iff in Hsz.
Qed.


Lemma save_pages_snoc dir ps p :
  save_pages dir (ps ++ [p]) = <[page_key p := Xml (page_doc p)]> (save_pages dir ps).
Proof. unfold save_pages. by rewrite foldl_app. Qed.


Lemma save_pages_lookup_other dir ps k :
  k ∉ page_key <$> ps → save_pages dir ps !! k = dir !! k.
Proof.
  induction ps as [|q ps IH] using rev_ind; [done|].
  rewrite save_pages_snoc, fmap_app. intros Hk.
  rewrite not_elem_of_app in Hk. destruct Hk as [Hk1 Hk2].
  rewrite lookup_insert_ne; [auto|].
  intros Heq. subst k. apply Hk2. simpl. by apply list_elem_of_singleton.
Qed.


(** *** Names that are files of the directory *)

Lemma components_nonempty path : components path ≠ [].
Proof.
  destruct path as [|c rest]; simpl; [done|].
  destruct (Ascii.eqb c "/"); [done|]. by destruct (components rest).
Qed.

Lemma components_single path c : components path = [c] → c = path.
Proof.
  revert c. induction path as [|a rest IH]; intros c; simpl.
  - by intros [= <-].
  - destruct (Ascii.eqb a "/").
    + intros [= _ Hrest]. by apply components_nonempty in Hrest.
    + destruct (components rest) as [|cur more] eqn:Hrest;
        [by apply components_nonempty in Hrest|].
      intros [= <- ->]. by rewrite (IH cur).
Qed.

Lemma resolve_file_name_ok dir name :
  file_name_ok name = true → resolve dir (components name) = inr name.
Proof.
  unfold file_name_ok.
  destruct (components name) as [|c [|c' cs]] eqn:Hcs; [done| |done].
  apply components_single in Hcs as ->.
  intros [[Hstay Hup]%andb_true_iff Hlen]%andb_true_iff. simpl.
  apply negb_true_iff in Hstay, Hup. rewrite Hstay, Hup. simpl.
  apply Nat.leb_le in Hlen.
  destruct (NAME_MAX <? String.length name)%nat eqn:Hlong; [|done].
  apply Nat.ltb_lt in Hlong. lia.
Qed.

Lemma string_length_app (s1 s2 : string) :
  String.length (s1 +:+ s2) = (String.length s1 + String.length s2)%nat.
Proof. induction s1 as [|c s1 IH]; simpl; [done|]. by rewrite IH. Qed.

Lemma file_name_ok_length name :
  file_name_ok name = true → (String.length name ≤ NAME_MAX)%nat.
Proof.
  unfold file_name_ok.
  destruct (components name) as [|c [|c' cs]] eqn:Hcs; [done| |done].
  apply components_single in Hcs as ->.
  intros [_ Hlen]%andb_true_iff. by apply Nat.leb_le.
Qed.

Lemma file_name_ok_path name :
  file_name_ok name = true →
  (PATH_MAX <=? String.length (XML_CACHE +:+ "/" +:+ name))%nat = false.
Proof.
  intros Hname%file_name_ok_length. apply Nat.leb_gt.
  rewrite !string_length_app. unfold NAME_MAX, PATH_MAX in *. simpl. lia.
Qed.

Lemma write_file_ok name raw w dir :
  file_name_ok name = true →
  xml_cache w = Some dir →
  write_file name raw w =
    (Ok tt, {| xml_cache := Some (<[name := raw]> dir);
               df_cache := df_cache w; requests := requests w |}).
Proof.
  intros Hname Hdir. unfold write_file.
  by rewrite (file_name_ok_path name Hname), Hdir,
       (resolve_file_name_ok dir name Hname).
Qed.

(** A write adds or replaces one file, or fails and changes nothing. *)
Lemma write_file_cases name raw w dir :
  xml_cache w = Some dir →
  (∃ e, write_file name raw w = (Raise e, w))
  ∨ (∃ file, write_file name raw w =
               (Ok tt, {| xml_cache := Some (<[file := raw]> dir);
                          df_cache := df_cache w; requests := requests w |})).
Proof.
  intros Hdir. unfold write_file. rewrite Hdir.
  destruct (PATH_MAX <=? _)%nat; [eauto|].
  destruct (resolve dir (components name)) as [e|file]; eauto.
Qed.

(** What [open] makes of some names, in a directory that holds the file
    [1-2.xml]. *)
Lemma resolve_examples :
  let dir : gmap string xml_raw := {["1-2.xml"%string := NotXml]} in
  resolve dir (components "3-4.xml") = inr "3-4.xml"%string
  ∧ resolve dir (components "./3-4.xml") = inr "3-4.xml"%string
  ∧ resolve dir (components "/3-4.xml") = inr "3-4.xml"%string
  ∧ resolve dir (components "1/2-3.xml") = inl FileNotFoundError
  ∧ resolve dir (components "1-2.xml/3.xml") = inl NotADirectoryError
  ∧ resolve dir (components "../3-4.xml") = inl PathLeavesCache
  ∧ file_name_ok "3-4.xml" = true
  ∧ file_name_ok "1/2-3.xml" = false
  ∧ file_name_ok ".." = false.
Proof. repeat split; by vm_compute. Qed.

(** [str.strip()] takes off Unicode whitespace on both sides and leaves
    the inside alone. *)
Lemma strip_examples :
  Str.strip (" " +:+ Str.nbsp +:+ "1 000" +:+ Str.nbsp +:+ " ") = "1 000"%string
  ∧ Str.strip (Str.wide_space +:+ "7" +:+ Str.wide_space) = "7"%string
  ∧ Str.strip (Str.nbsp +:+ Str.nbsp) = ""%string
  ∧ Str.strip "1/2" = "1/2"%string.
Proof. repeat split; by vm_compute. Qed.

Lemma download_loop_done fuel w :
  download_loop server fuel None w = (Ok tt, w).
Proof. by destruct fuel. Qed.

(** Fetching a chain of pages: the loop runs once per page and goes on
    from the last locator with the fuel that is left. *)
Lemma download_loop_chain loc ps final :
  page_chain server loc ps final →
  Forall (λ p, file_name_ok (page_key p) = true) ps →
  ∀ fuel w dir,
    xml_cache w = Some dir →
    download_loop server (length ps + fuel) loc w =
    download_loop server fuel final
      {| xml_cache := Some (save_pages dir ps);
         df_cache := df_cache w;
         requests := requests w ++ locators loc ps |}.
Proof.
  induction 1 as [loc | url status p ps final Hsrv Hchain IH];
    intros Hnames fuel w dir Hdir.
  - destruct loc; simpl; rewrite app_nil_r; destruct w; simpl in *; by subst.
  - apply Forall_cons in Hnames as [Hname Hnames]. specialize (IH Hnames).
    cbn [length Nat.add download_loop].
    unfold bind at 1. unfold requests_get_text. rewrite Hsrv.
    unfold bind at 1. cbn [et_fromstring ret].
    unfold bind at 1. cbn [text_strip page_doc entryStart ret].
    unfold bind at 1. cbn [text_strip page_doc entryEnd ret].
    unfold bind at 1. fold (page_key p).
    erewrite (write_file_ok (page_key p)) by (exact Hname || exact Hdir).
    unfold advance in *. cbn [page_doc nextRequestURL].
    destruct (next_locator p) as [u|] eqn:Hnext;
      cbn [fmap option_fmap option_map];
      unfold bind, ret; cbn [text_strip];
      erewrite IH by reflexivity; cbn; unfold advance; rewrite Hnext;
      by rewrite <- app_assoc.
Qed.

(** Once the directory exists it stays. *)
Lemma download_loop_keeps_dir fuel :
  ∀ loc w,
    is_Some (xml_cache w) →
    is_Some (xml_cache (download_loop server fuel loc w).2).
Proof.
  induction fuel as [|fuel IH]; intros [url|] w [dir Hdir]; simpl; eauto.
  unfold bind, requests_get_text.
  destruct (server url) as [|status [|d]]; simpl; eauto.
  destruct (entryStart d) as [[s|]|]; simpl; eauto.
  destruct (entryEnd d) as [[e|]|]; simpl; eauto.
  match goal with
  | |- context [write_file ?n ?r ?w'] =>
      destruct (write_file_cases n r w' dir Hdir) as [[e' ->] | [file ->]]
  end; simpl; eauto.
  destruct (nextRequestURL d) as [[u|]|]; simpl; eauto; apply IH; simpl; eauto.
Qed.

(** When every page the server has is named like a file of the
    directory, no write misses the directory. *)
Lemma download_loop_finds_dir fuel :
  (∀ url status d s e,
     server url = Response status (Xml d) →
     entryStart d = Some (Some s) → entryEnd d = Some (Some e) →
     file_name_ok (page_file (Str.strip s) (Str.strip e)) = true) →
  ∀ loc w,
    is_Some (xml_cache w) →
    (download_loop server fuel loc w).1 ≠ Raise FileNotFoundError.
Proof.
  intros Hnames.
  induction fuel as [|fuel IH]; intros [url|] w [dir Hdir]; simpl; try done.
  unfold bind, requests_get_text.
  destruct (server url) as [|status [|d]] eqn:Hsrv; simpl; try done.
  destruct (entryStart d) as [[s|]|] eqn:Hs; simpl; try done.
  destruct (entryEnd d) as [[e|]|] eqn:He; simpl; try done.
  erewrite write_file_ok; [|by eapply Hnames|exact Hdir]. simpl.
  destruct (nextRequestURL d) as [[u|]|]; simpl; try done; apply IH; simpl; eauto.
Qed.

Lemma get_leaderboard_xml_warm fuel w dir :
  xml_cache w = Some dir → dir ≠ ∅ →
  get_leaderboard_xml server listdir fuel w = (Ok tt, w).
Proof.
  intros Hdir Hne. unfold get_leaderboard_xml, bind, makedirs, os_listdir.
  rewrite Hdir. simpl. rewrite Hdir. by rewrite listdir_nonempty.
Qed.

Lemma get_leaderboard_xml_cold fuel w :
  xml_cache w = None ∨ xml_cache w = Some ∅ →
  get_leaderboard_xml server listdir fuel w =
  download_xml server fuel {| xml_cache := Some ∅; df_cache := df_cache w;
                              requests := requests w |}.
Proof.
  intros Hcold. unfold get_leaderboard_xml, bind, makedirs, os_listdir.
  destruct Hcold as [-> | Hdir].
  - simpl. by rewrite listdir_empty.
  - rewrite Hdir. simpl. rewrite Hdir, listdir_empty. simpl.
    destruct w; simpl in *; by subst.
Qed.

(** Servers that differ in the status of their responses only are the
    same to the loop. *)
Lemma download_loop_ignores_status (server' : string → response) :
  (∀ url, response_text (server' url) = response_text (server url)) →
  ∀ fuel loc w, download_loop server' fuel loc w = download_loop server fuel loc w.
Proof.
  intros Hsame. induction fuel as [|fuel IH]; intros [url|] w; simpl; try done.
  unfold bind, requests_get_text. specialize (Hsame url).
  destruct (server' url) as [|status' text'], (server url) as [|status text];
    simplify_eq/=; [done|].
  destruct text as [|d]; simpl; [done|].
  destruct (entryStart d) as [[s|]|]; simpl; try done.
  destruct (entryEnd d) as [[e|]|]; simpl; try done.
  destruct (write_file _ _ _) as [[[]|e'|] w1]; simpl; try done.
  destruct (nextRequestURL d) as [[u|]|]; simpl; try done; apply IH.
Qed.

(** C3: a page cache that holds at least one file, complete or not, makes
    the ingestion step a no-op: it returns at once, leaves the world as it
    is and so requests nothing from the network. *)
Theorem warm_cache_is_noop fuel w dir :
  xml_cache w = Some dir →
  dir ≠ ∅ →
  get_leaderboard_xml server listdir fuel w = (Ok tt, w)
  ∧ requests (get_leaderboard_xml server listdir fuel w).2 = requests w.
Proof.
  intros Hdir Hne. by rewrite (get_leaderboard_xml_warm fuel w dir).
Qed.

(** C10: without a cache directory, [get_leaderboard_xml] creates it
    first, so listing it cannot fail; the new directory is empty, hence
    cold, and the whole download runs from it; however the download ends,
    the directory exists afterwards.  The download itself does not miss
    the directory either, as long as the ranges of the pages name files
    of the directory (a range with a slash in it sends [open] to a
    subdirectory that is not there). *)
Theorem cold_start_creates_cache_dir fuel w :
  xml_cache w = None →
  let created := {| xml_cache := Some ∅; df_cache := df_cache w;
                    requests := requests w |} in
  makedirs w = (Ok tt, created)
  ∧ os_listdir listdir created = (Ok [], created)
  ∧ get_leaderboard_xml server listdir fuel w = download_xml server fuel created
  ∧ is_Some (xml_cache (get_leaderboard_xml server listdir fuel w).2)
  ∧ ((∀ url status d s e,
        server url = Response status (Xml d) →
        entryStart d = Some (Some s) → entryEnd d = Some (Some e) →
        file_name_ok (Str.strip s +:+ "-" +:+ Str.strip e +:+ ".xml") = true) →
     (get_leaderboard_xml server listdir fuel w).1 ≠ Raise FileNotFoundError).
Proof.
  intros Hnone created.
  assert (makedirs w = (Ok tt, created)) as Hmk
    by (unfold makedirs; by rewrite Hnone).
  assert (os_listdir listdir created = (Ok [], created)) as Hls
    by (unfold os_listdir; simpl; by rewrite listdir_empty).
  assert (get_leaderboard_xml server listdir fuel w
          = download_xml server fuel created) as Hrun
    by (apply get_leaderboard_xml_cold; by left).
  repeat split; try done; rewrite Hrun.
  - apply download_loop_keeps_dir; simpl; eauto.
  - intros Hnames. apply download_loop_finds_dir; simpl; eauto.
Qed.


(** C5, as the code has it: the fetch of a page fails when the request
    meets a transport failure (the exception of [requests]), when the body
    is not XML or when the document lacks its range.  When the pages [ps]
    were fetched and saved, each under the file name its range makes, and
    the next fetch fails, [download_xml] raises that exception, every
    request made is in the log, and the cache holds the pages [ps] and
    nothing newer.  The exception is the one of [requests] exactly when
    the transport failed.  The HTTP status plays no part: servers that
    differ in it alone make the same run. *)
Theorem fetch_failure_keeps_earlier_pages ps u e w dir extra :
  let name := λ p, Str.strip (range_start p) +:+ "-"
                   +:+ Str.strip (range_end p) +:+ ".xml" in
  page_chain server (Some first_url) ps (Some u) →
  Forall (λ p, file_name_ok (name p) = true) ps →
  fetch_error (server u) = Some e →
  xml_cache w = Some dir →
  download_xml server (length ps + S extra) w =
    (Raise e, {| xml_cache :=
                   Some (foldl (λ d p, <[name p := Xml (page_doc p)]> d) dir ps);
                 df_cache := df_cache w;
                 requests := (requests w ++ locators (Some first_url) ps) ++ [u] |})
  ∧ (e = RequestException ↔ server u = TransportFailure)
  ∧ (∀ server' : string → response,
       (∀ url, response_text (server' url) = response_text (server url)) →
       ∀ fuel w, download_xml server' fuel w = download_xml server fuel w).
Proof.
  intros name Hchain Hnames Herr Hdir.
  cut (download_xml server (length ps + S extra) w =
         (Raise e, {| xml_cache := Some (save_pages dir ps);
                      df_cache := df_cache w;
                      requests := (requests w ++ locators (Some first_url) ps)
                                    ++ [u] |})
       ∧ (e = RequestException ↔ server u = TransportFailure)).
  { intros [? ?]. repeat split; try done; try tauto.
    intros server' Hsame fuel w0. by apply download_loop_ignores_status. }
  unfold download_xml.
  rewrite (download_loop_chain _ _ _ Hchain Hnames (S extra) w dir Hdir). simpl.
  unfold bind, requests_get_text. simpl.
  destruct (server u) as [|status [|d]]; simpl in *.
  - by simplify_eq.
  - simplify_eq. split; [done|]. split; discriminate.
  - destruct (entryStart d) as [[s|]|]; simpl in *;
      [destruct (entryEnd d) as [[e'|]|]; simpl in * | |];
      simplify_eq; (split; [done|]); split; discriminate.
Qed.

(** *** Assembling the data frame *)

Lemma read_all_ok names w dir :
  xml_cache w = Some dir →
  Forall (λ name, ∃ raw, dir !! name = Some raw ∧ file_rows raw ≠ []) names →
  read_all names w =
    (Ok ((λ name, file_rows (default NotXml (dir !! name))) <$> names), w).
Proof.
  intros Hdir. induction 1 as [|name names (raw & Hraw & Hrows) _ IH]; [done|].
  cbn [read_all]. unfold bind at 1. unfold read_xml. rewrite Hdir, Hraw.
  destruct raw as [|d]; [done|]. simpl in Hrows.
  destruct (entries d) as [|r rs] eqn:Hd; [done|].
  unfold bind. rewrite IH. cbn. by rewrite Hraw, <- Hd.
Qed.

Lemma concat_fmap_perm {A B} (f : A → list B) (l l' : list A) :
  l ≡ₚ l' → concat (f <$> l) ≡ₚ concat (f <$> l').
Proof.
  induction 1 as [|x l l' _ IH|x y l|l l' l'' _ IH1 _ IH2]; simpl.
  - done.
  - by rewrite IH.
  - rewrite !app_assoc. f_equiv. apply Permutation_app_comm.
  - by etrans.
Qed.

Lemma map_to_list_lookup_values (dir : gmap string xml_raw) :
  (λ name, default NotXml (dir !! name)) <$> (map_to_list dir).*1
  = (map_to_list dir).*2.
Proof.
  rewrite <- list_fmap_compose. apply Forall_fmap_ext_1, Forall_forall.
  intros [name raw] Hin%elem_of_map_to_list. simpl. by rewrite Hin.
Qed.

(** With a cache of at least one file, each holding rows, the second half
    of [xml_to_df] yields the rows of all files in [os.listdir] order. *)
Lemma assemble_ok w dir :
  xml_cache w = Some dir → dir ≠ ∅ →
  map_Forall (λ _ raw, file_rows raw ≠ []) dir →
  let df := concat ((λ name, file_rows (default NotXml (dir !! name)))
                      <$> listdir dir) in
  (let* names := os_listdir listdir in
   let* all_dfs := read_all names in
   pd_concat all_dfs) w = (Ok df, w)
  ∧ df ≡ₚ concat (file_rows <$> (map_to_list dir).*2).
Proof.
  intros Hdir Hne Hrows df. split.
  - unfold bind at 1. unfold os_listdir. rewrite Hdir.
    unfold bind. rewrite (read_all_ok _ w dir Hdir).
    + subst df. destruct (listdir dir) as [|name names] eqn:Hls; [|done].
      exfalso. pose proof (listdir_nonempty dir Hne) as Hlen.
      by rewrite Hls in Hlen.
    + apply Forall_forall. intros name Hname.
      rewrite (enum_perm listdir dir) in Hname.
      apply list_elem_of_fmap in Hname as ([name' raw] & -> & Hin).
      apply elem_of_map_to_list in Hin. exists raw. split; [done|].
      by apply (Hrows name').
  - subst df. rewrite <- map_to_list_lookup_values.
    rewrite <- list_fmap_compose.
    apply (concat_fmap_perm (λ name, file_rows (default NotXml (dir !! name)))).
    apply enum_perm.
Qed.

Lemma map_to_list_save_pages ps :
  NoDup (page_key <$> ps) →
  map_to_list (save_pages ∅ ps)
  ≡ₚ (λ p, (page_key p, Xml (page_doc p))) <$> ps.
Proof.
  induction ps as [|q ps IH] using rev_ind; intros Hnd.
  - unfold save_pages. simpl. by rewrite map_to_list_empty.
  - rewrite fmap_app in Hnd. apply NoDup_app in Hnd as (Hnd & Hdisj & _).
    rewrite save_pages_snoc, fmap_app. simpl.
    rewrite map_to_list_insert.
    + rewrite IH by done. apply Permutation_cons_append.
    + rewrite save_pages_lookup_other; [apply lookup_empty|].
      intros Hin. apply (Hdisj _ Hin). simpl. by apply list_elem_of_singleton.
Qed.

Lemma save_pages_nonempty dir ps : ps ≠ [] → save_pages dir ps ≠ ∅.
Proof.
  destruct ps as [|q ps] using rev_ind; [done|]. intros _.
  rewrite save_pages_snoc. apply insert_non_empty.
Qed.

(** From nothing: the pages are downloaded, read back and pickled. *)
Lemma get_leaderboard_df_cold fuel w ps :
  df_cache w = None →
  xml_cache w = None ∨ xml_cache w = Some ∅ →
  page_chain server (Some first_url) ps None →
  (length ps ≤ fuel)%nat →
  Forall (λ p, file_name_ok (page_key p) = true) ps →
  Forall (λ p, rows p ≠ []) ps →
  NoDup (page_key <$> ps) →
  ∃ df,
    get_leaderboard_df server listdir fuel w =
      (Ok df, {| xml_cache := Some (save_pages ∅ ps);
                 df_cache := Some df;
                 requests := requests w ++ locators (Some first_url) ps |})
    ∧ df ≡ₚ concat (rows <$> ps).
Proof.
  intros Hdf Hcold Hchain Hfuel Hnames Hrows Hnd.
  assert (ps ≠ []) as Hps by (intros ->; inversion Hchain).
  set (w1 := {| xml_cache := Some (save_pages ∅ ps); df_cache := df_cache w;
                requests := requests w ++ locators (Some first_url) ps |}).
  assert (get_leaderboard_xml server listdir fuel w = (Ok tt, w1)) as Hingest.
  { rewrite (get_leaderboard_xml_cold fuel w Hcold). unfold download_xml.
    replace fuel with (length ps + (fuel - length ps))%nat by lia.
    erewrite download_loop_chain by (done || reflexivity).
    by rewrite download_loop_done. }
  assert (map_Forall (λ _ raw, file_rows raw ≠ []) (save_pages ∅ ps)) as Hall.
  { apply map_Forall_to_list. rewrite (map_to_list_save_pages ps Hnd).
    apply Forall_fmap. eapply Forall_impl; [exact Hrows|]. by intros p Hp. }
  destruct (assemble_ok w1 (save_pages ∅ ps) eq_refl
              (save_pages_nonempty ∅ ps Hps) Hall) as [Hrun Hperm].
  eexists. split.
  - unfold get_leaderboard_df. rewrite Hdf.
    unfold bind at 1. unfold xml_to_df. unfold bind at 1.
    rewrite Hingest, Hrun. unfold bind, to_pickle, ret. simpl. done.
  - rewrite Hperm. rewrite (map_to_list_save_pages ps Hnd).
    by rewrite <- !list_fmap_compose.
Qed.


End IngestFacts.

(** *** The small leaderboard, run *)

Lemma healthy_chain :
  page_chain Example.healthy (Some first_url) [Example.page1; Example.page2] None.
Proof.
  eapply chain_cons; [by vm_compute|].
  eapply (chain_cons _ Example.second_url); [by vm_compute|].
  apply chain_nil.
Qed.

Lemma dropping_chain :
  page_chain Example.dropping (Some first_url) [Example.page1]
    (Some Example.second_url).
Proof.
  eapply chain_cons; [by vm_compute|].
  apply (chain_nil _ (Some Example.second_url)).
Qed.

(** An interrupted run left one file: nothing is fetched. *)
Lemma warm_cache_is_noop_witness :
  get_leaderboard_xml Example.healthy storage_order 5 Example.partial
  = (Ok tt, Example.partial)
  ∧ requests (get_leaderboard_xml Example.healthy storage_order 5 Example.partial).2
    = [].
Proof.
  apply (warm_cache_is_noop Example.healthy storage_order 5 Example.partial
           {["1-2.xml" := Xml (page_doc Example.page1)]}).
  - reflexivity.
  - apply insert_non_empty.
Defined.

(** Without a directory the run is the download into a new, empty one. *)
Lemma cold_start_creates_cache_dir_witness :
  get_leaderboard_xml Example.healthy storage_order 5 Example.fresh
  = download_xml Example.healthy 5 Example.empty_dir
  ∧ is_Some (xml_cache
               (get_leaderboard_xml Example.healthy storage_order 5 Example.fresh).2).
Proof.
  destruct (cold_start_creates_cache_dir Example.healthy storage_order 5
              Example.fresh eq_refl) as (_ & _ & Hrun & Hdir & _).
  split; [exact Hrun | exact Hdir].
Defined.



(** The connection drops at the second page: the first one stays cached. *)
Lemma fetch_failure_keeps_earlier_pages_witness :
  download_xml Example.dropping 2 Example.empty_dir
  = (Raise RequestException,
     {| xml_cache := Some (<["1-2.xml" := Xml (page_doc Example.page1)]> ∅);
        df_cache := None;
        requests := [first_url; Example.second_url] |}).
Proof.
  destruct (fetch_failure_keeps_earlier_pages Example.dropping
              [Example.page1] Example.second_url RequestException
              Example.empty_dir ∅ 0 dropping_chain) as (Hrun & _).
  - repeat constructor.
  - reflexivity.
  - reflexivity.
  - exact Hrun.
Defined.

(** A response with status 503 is no failure: the page it carries is
    parsed and saved, and [download_xml] returns. *)
Lemma status_503_is_not_a_failure :
  Example.unavailable first_url = Response 503 (Xml (page_doc Example.page2))
  ∧ download_xml Example.unavailable 1 Example.empty_dir
    = (Ok tt, {| xml_cache := Some {["3-4.xml" := Xml (page_doc Example.page2)]};
                 df_cache := None;
                 requests := [first_url] |}).
Proof. split; [done|]. by vm_compute. Qed.



(** ** Facts about the statistics *)

Section StatsFacts.

Local Open Scope nat_scope.

Lemma Qc_of_nat_add a b : Qc_of_nat (a + b) = (Qc_of_nat a + Qc_of_nat b)%Qc.
Proof. unfold Qc_of_nat. by rewrite Nat2Z.inj_add, Z2Qc_inj_add. Qed.

Lemma Qc_of_nat_0 : Qc_of_nat 0 = 0%Qc.
Proof. apply Z2Qc_inj_0. Qed.

Lemma Qc_of_nat_pos n : 0 < n → Qc_of_nat n ≠ 0%Qc.
Proof.
  intros Hn Heq. unfold Qc_of_nat in Heq. rewrite <- Z2Qc_inj_0 in Heq.
  apply Z2Qc_inj in Heq. lia.
Qed.

Lemma total_players_app l1 l2 :
  total_players (l1 ++ l2) = total_players l1 + total_players l2.
Proof. induction l1 as [|x l1 IH]; simpl; [done|]. rewrite IH. lia. Qed.

Lemma total_players_rev l : total_players (rev l) = total_players l.
Proof.
  induction l as [|x l IH]; simpl; [done|].
  rewrite total_players_app, IH. simpl. lia.
Qed.

Lemma total_players_all_zero l : Forall (λ c, c = 0) l → total_players l = 0.
Proof. induction 1 as [|? ? -> _ IH]; simpl; lia. Qed.

Lemma total_players_zero l : total_players l = 0 → Forall (λ c, c = 0) l.
Proof.
  induction l as [|x l IH]; simpl; intros Hsum; constructor; [lia|].
  apply IH. lia.
Qed.

Lemma cumsum_from_app acc l1 l2 :
  cumsum_from acc (l1 ++ l2) =
  cumsum_from acc l1 ++ cumsum_from (acc + total_players l1) l2.
Proof.
  revert acc. induction l1 as [|x l1 IH]; intros acc; simpl.
  - by rewrite Nat.add_0_r.
  - rewrite IH. by rewrite Nat.add_assoc.
Qed.

(** Reversing, accumulating and reversing again gives, at each position,
    the sum of the counts from there on. *)
Lemma rev_cumsum_rev_cons x l :
  rev (cumsum (rev (x :: l))) = (x + total_players l) :: rev (cumsum (rev l)).
Proof.
  unfold cumsum. simpl. rewrite cumsum_from_app. simpl.
  rewrite rev_app_distr. simpl. rewrite total_players_rev. f_equal. lia.
Qed.

(** Percentages of a non-zero total are finite and add up. *)
Lemma line_percentage_fin c total :
  0 < total →
  line_percentage c total = Fin (Qc_of_nat c / Qc_of_nat total * Qc_of_Z 100)%Qc.
Proof. intros Ht. unfold line_percentage, np_truediv. by destruct total; [lia|]. Qed.

Lemma np_sum_line_percentage counts total :
  0 < total →
  np_sum ((λ c, line_percentage c total) <$> counts)
  = line_percentage (total_players counts) total.
Proof.
  intros Ht. induction counts as [|c counts IH].
  - simpl. rewrite line_percentage_fin by done. rewrite Qc_of_nat_0.
    apply (f_equal Fin). field. by apply Qc_of_nat_pos.
  - rewrite fmap_cons. unfold np_sum in *. cbn [foldr].
    change (total_players (c :: counts)) with (c + total_players counts).
    rewrite IH. rewrite !line_percentage_fin by done.
    cbn [np_add]. rewrite Qc_of_nat_add.
    apply (f_equal Fin). field. by apply Qc_of_nat_pos.
Qed.

Lemma cumulative_top_suffix_sums total counts :
  0 < total ∨ Forall (λ c, c = 0) counts →
  (λ s, line_percentage s total) <$> rev (cumsum (rev counts))
  = suffix_sums ((λ c, line_percentage c total) <$> counts).
Proof.
  induction counts as [|c counts IH]; intros Hcase; [done|].
  rewrite rev_cumsum_rev_cons. cbn [fmap list_fmap suffix_sums].
  rewrite IH.
  2:{ destruct Hcase as [?|Hz]; [by left | right; by inversion Hz]. }
  f_equal. destruct (decide (0 < total)) as [Ht | Ht].
  - symmetry. apply (np_sum_line_percentage (c :: counts) total Ht).
  - destruct Hcase as [? | Hz]; [done|].
    assert (total = 0) as -> by lia.
    apply total_players_all_zero in Hz as Hsum. simpl in Hsum. rewrite Hsum.
    inversion Hz; subst. done.
Qed.

Lemma value_counts_reindex_length bin_labels ranked_bins :
  length (value_counts_reindex bin_labels ranked_bins) = length bin_labels.
Proof. unfold value_counts_reindex. by rewrite length_imap. Qed.

Lemma rank_counts_length chk lower_bounds bin_labels scores counts :
  rank_counts chk lower_bounds bin_labels scores = Ok counts →
  length counts = length bin_labels.
Proof.
  unfold rank_counts. destruct (pd_cut _ _ _ _); intros; simplify_eq.
  apply value_counts_reindex_length.
Qed.

Lemma cumsum_from_length acc l : length (cumsum_from acc l) = length l.
Proof. revert acc. induction l as [|x l IH]; intros acc; simpl; by rewrite ?IH. Qed.

Lemma cumulative_top_length counts :
  length (cumulative_top_percentage counts) = length counts.
Proof.
  unfold cumulative_top_percentage, cumsum.
  by rewrite length_fmap, length_rev, cumsum_from_length, length_rev.
Qed.

Lemma divisions_zip total bin_labels counts tops :
  length bin_labels = length counts →
  length tops = length counts →
  let ds := zip_with (λ l ct, Division l ct.1 (line_percentage ct.1 total) ct.2)
              bin_labels (zip counts tops) in
  div_label <$> ds = bin_labels
  ∧ div_count <$> ds = counts
  ∧ div_percentage <$> ds = (λ c, line_percentage c total) <$> counts
  ∧ div_top <$> ds = tops.
Proof.
  revert counts tops. induction bin_labels as [|l ls IH];
    intros [|c counts] [|t tops] Hlabels Htops; simplify_eq/=; [done|].
  destruct (IH counts tops) as (? & ? & ? & ?); [done..|].
  repeat split; by f_equal.
Qed.

Lemma divisions_fields bin_labels counts :
  length bin_labels = length counts →
  div_label <$> divisions bin_labels counts = bin_labels
  ∧ div_count <$> divisions bin_labels counts = counts
  ∧ div_percentage <$> divisions bin_labels counts
    = (λ c, line_percentage c (total_players counts)) <$> counts
  ∧ div_top <$> divisions bin_labels counts = cumulative_top_percentage counts.
Proof.
  intros Hlen. apply divisions_zip; [done|]. apply cumulative_top_length.
Qed.

Lemma rev_cumsum_rev counts : rev (cumsum (rev counts)) = suffix_counts counts.
Proof.
  induction counts as [|c counts IH]; [done|].
  by rewrite rev_cumsum_rev_cons, IH.
Qed.

(** C6, as the code has it: line 194 takes the suffix sums of the counts
    (reverse, accumulate, reverse), and divides each by the total and
    scales it.  As numbers these are the suffix sums of the percentages
    (NaN throughout when nobody is counted); as floats each is the rounded
    quotient of a suffix count, which the sum of the rounded percentages
    need not hit.  The divisions come out in the order of [bin_labels],
    for the labels of [rivals2_line_plot] as for any others; percentages
    50, 30, 20 give 100, 50, 20, also in binary64. *)
Theorem cumulative_top_is_suffix_sum :
  (∀ counts, rev (cumsum (rev counts)) = suffix_counts counts)
  ∧ (∀ counts,
       cumulative_top_percentage counts
       = suffix_sums ((λ c, line_percentage c (total_players counts)) <$> counts))
  ∧ (∀ counts,
       Binary64.cumulative_top_percentage counts
       = (λ s, Binary64.percentage (Z.of_nat s) (Z.of_nat (total_players counts)))
           <$> suffix_counts counts)
  ∧ (∀ chk lower_bounds bin_labels combined_df,
       match rivals2_line_plot_with chk lower_bounds bin_labels combined_df with
       | Ok ds => div_label <$> ds = bin_labels
                  ∧ div_top <$> ds = suffix_sums (div_percentage <$> ds)
       | _ => True
       end)
  ∧ (let ds := divisions ["A"; "B"; "C"]%string [5; 3; 2] in
     div_percentage <$> ds = [Fin (Qc_of_Z 50); Fin (Qc_of_Z 30); Fin (Qc_of_Z 20)]
     ∧ div_top <$> ds = [Fin (Qc_of_Z 100); Fin (Qc_of_Z 50); Fin (Qc_of_Z 20)])
  ∧ Binary64.line_percentages [5; 3; 2]
    = [Binary64.of_count 50; Binary64.of_count 30; Binary64.of_count 20]
  ∧ Binary64.cumulative_top_percentage [5; 3; 2]
    = [Binary64.of_count 100; Binary64.of_count 50; Binary64.of_count 20]
  ∧ Binary64.suffix_sums (Binary64.line_percentages [5; 3; 2])
    = Binary64.cumulative_top_percentage [5; 3; 2].
Proof.
  assert (∀ counts,
     cumulative_top_percentage counts
     = suffix_sums ((λ c, line_percentage c (total_players counts)) <$> counts))
    as Hsuffix.
  { intros counts. unfold cumulative_top_percentage.
    apply (cumulative_top_suffix_sums (total_players counts) counts).
    destruct (total_players counts) eqn:Hsum; [right | left; lia].
    by apply total_players_zero. }
  split; [apply rev_cumsum_rev|]. split; [done|]. split.
  { intros counts. unfold Binary64.cumulative_top_percentage.
    by rewrite rev_cumsum_rev. }
  split.
  - intros chk lower_bounds bin_labels combined_df.
    unfold rivals2_line_plot_with.
    destruct (rank_counts _ _ _ _) as [counts| |] eqn:Hcounts; [|done..].
    apply rank_counts_length in Hcounts.
    destruct (divisions_fields bin_labels counts) as (-> & _ & -> & ->); [done|].
    auto.
  - split; [split; apply (bool_decide_unpack _); by vm_compute|].
    repeat split; by vm_compute.
Qed.

(** *** The last edge *)

(** Below the largest int64 the sum with 1 is the successor; at the
    largest it is the smallest int64. *)
Lemma int64_add_succ m :
  (INT64_MIN ≤ m < INT64_MAX)%Z → int64_add m 1 = Z.succ m.
Proof.
  unfold int64_add, wrap64, INT64_MIN, INT64_MAX. intros Hm.
  rewrite Z.mod_small; lia.
Qed.

Lemma int64_add_wraps : int64_add INT64_MAX 1 = INT64_MIN.
Proof. reflexivity. Qed.

(** *** What [pd.cut] accepts *)

Lemma remove_dups_length_le {A} `{EqDecision A} (l : list A) :
  length (remove_dups l) ≤ length l.
Proof.
  induction l as [|x l IH]; simpl; [done|].
  destruct (decide_rel _ x l); simpl; lia.
Qed.

Lemma remove_dups_same_length {A} `{EqDecision A} (l : list A) :
  length (remove_dups l) = length l → NoDup l.
Proof.
  induction l as [|x l IH]; simpl; [constructor|].
  pose proof (remove_dups_length_le l).
  destruct (decide_rel _ x l); simpl; intros Hlen; [lia|].
  constructor; [done|]. apply IH. lia.
Qed.

(** The binning either succeeds or raises [ValueError]. *)
Lemma rank_counts_outcome chk lower_bounds bin_labels scores :
  (∃ counts, rank_counts chk lower_bounds bin_labels scores = Ok counts)
  ∨ rank_counts chk lower_bounds bin_labels scores = Raise ValueError.
Proof.
  unfold rank_counts.
  assert (∀ x bins, (∃ codes, pd_cut chk x bins bin_labels = Ok codes)
                    ∨ pd_cut chk x bins bin_labels = Raise ValueError) as Hcut.
  { intros x bins. unfold pd_cut.
    destruct (negb (bins_increase chk bins)); [by right|].
    destruct (_ && _); [by right|].
    destruct (negb (_ =? _)); [by right|].
    destruct (negb (_ =? _)); [by right|]. left; eauto. }
  destruct (Hcut scores ((Some <$> lower_bounds)
                           ++ [(λ m, int64_add m 1) <$> series_max scores]))
    as [[codes ->] | ->]; eauto.
Qed.

Lemma pd_cut_Ok chk x bins labels codes :
  pd_cut chk x bins labels = Ok codes →
  bins_increase chk bins = true
  ∧ (NoDup bins ∨ length bins = 2)
  ∧ length labels = length bins - 1
  ∧ codes = bin_code bins <$> x.
Proof.
  unfold pd_cut.
  destruct (bins_increase chk bins); simpl; [|done].
  destruct (length (remove_dups bins) <? length bins) eqn:Hdup; simpl.
  - destruct (length bins =? 2) eqn:Hlen; simpl; [|done].
    apply Nat.eqb_eq in Hlen.
    repeat (case_match; simpl; try done).
    intros [= <-]. repeat split; auto.
    rewrite negb_false_iff in *. by apply Nat.eqb_eq.
  - apply Nat.ltb_ge in Hdup. pose proof (remove_dups_length_le bins).
    repeat (case_match; simpl; try done).
    intros [= <-]. repeat split; auto.
    + left. apply remove_dups_same_length. lia.
    + rewrite negb_false_iff in *. by apply Nat.eqb_eq.
Qed.

Lemma bins_increase_lowers chk lowers e a b rest :
  bins_increase chk ((Some <$> lowers) ++ [e]) = true →
  lowers = a :: b :: rest →
  (a ≤ b)%Z ∧ bins_increase chk ((Some <$> (b :: rest)) ++ [e]) = true.
Proof.
  intros Hinc ->. destruct chk; simpl in *.
  - apply andb_true_iff in Hinc as [Hab Hrest]. split; [lia|].
    destruct rest; done.
  - apply andb_true_iff in Hinc as [Hab Hrest]. split; [lia|]. done.
Qed.

Lemma accepted_lowers_strict chk lowers e :
  bins_increase chk ((Some <$> lowers) ++ [e]) = true →
  NoDup lowers →
  strictly_increasing lowers = true.
Proof.
  induction lowers as [|a [|b rest] IH]; intros Hinc Hnd; [done..|].
  destruct (bins_increase_lowers chk _ e a b rest Hinc eq_refl) as [Hab Hrest].
  apply NoDup_cons in Hnd as [Ha Hnd].
  cbn [strictly_increasing]. apply andb_true_iff. split.
  - apply Z.ltb_lt. assert (a ≠ b) by (intros ->; apply Ha; left). lia.
  - by apply IH.
Qed.

(** Lower bounds that [pd.cut] accepts are strictly increasing. *)
Lemma accepted_bounds_are_strict chk lower_bounds bin_labels scores counts :
  rank_counts chk lower_bounds bin_labels scores = Ok counts →
  strictly_increasing lower_bounds = true.
Proof.
  unfold rank_counts.
  destruct (pd_cut _ _ _ _) as [codes| |] eqn:Hcut; [|done..]. intros _.
  apply pd_cut_Ok in Hcut as (Hinc & Hnd & _).
  destruct Hnd as [Hnd | Hlen].
  - apply (accepted_lowers_strict chk _ _ Hinc).
    apply NoDup_app in Hnd as [Hnd _].
    by apply NoDup_fmap in Hnd; [|apply _].
  - rewrite length_app, length_fmap in Hlen. simpl in Hlen.
    by destruct lower_bounds as [|a [|b rest]]; simpl in *; [..|lia].
Qed.

(** Lower bounds that are not strictly increasing make [pd.cut] raise
    [ValueError], whatever the data, and nothing is counted. *)
Lemma unsorted_bounds_are_rejected chk lower_bounds bin_labels scores :
  strictly_increasing lower_bounds = false →
  rank_counts chk lower_bounds bin_labels scores = Raise ValueError.
Proof.
  intros Hbad.
  destruct (rank_counts_outcome chk lower_bounds bin_labels scores)
    as [[counts Hok] | Hraise]; [|done].
  apply accepted_bounds_are_strict in Hok. congruence.
Qed.

(** *** What [pd.cut] does with accepted bins *)

Lemma strictly_increasing_tail a es :
  strictly_increasing (a :: es) = true → strictly_increasing es = true.
Proof. destruct es; simpl; [done|]. by intros [_ ?]%andb_true_iff. Qed.

Lemma strictly_increasing_above a es b :
  strictly_increasing (a :: es) = true → b ∈ es → (a < b)%Z.
Proof.
  revert a. induction es as [|c es IH]; intros a Hinc Hb; [by inversion Hb|].
  cbn [strictly_increasing] in Hinc.
  apply andb_true_iff in Hinc as [Hac%Z.ltb_lt Hinc].
  apply elem_of_cons in Hb as [-> | Hb]; [done|].
  specialize (IH c Hinc Hb). lia.
Qed.

Lemma strictly_increasing_last es b a :
  strictly_increasing (es ++ [b]) = true → a ∈ es → (a < b)%Z.
Proof.
  induction es as [|e es IH]; intros Hinc Ha; [by inversion Ha|].
  apply elem_of_cons in Ha as [-> | Ha].
  - apply (strictly_increasing_above e (es ++ [b])); [done|].
    apply elem_of_app. right. by left.
  - apply IH; [|done]. by eapply strictly_increasing_tail.
Qed.

Lemma strictly_increasing_NoDup es : strictly_increasing es = true → NoDup es.
Proof.
  induction es as [|a es IH]; intros Hinc; constructor.
  - intros Ha. pose proof (strictly_increasing_above a es a Hinc Ha). lia.
  - apply IH. by eapply strictly_increasing_tail.
Qed.

Lemma strictly_increasing_bins chk es :
  strictly_increasing es = true → bins_increase chk (Some <$> es) = true.
Proof.
  induction es as [|a [|b es] IH]; intros Hinc; [by destruct chk..|].
  cbn [strictly_increasing] in Hinc.
  apply andb_true_iff in Hinc as [Hab%Z.ltb_lt Hinc].
  specialize (IH Hinc). destruct chk; simpl in *;
    apply andb_true_iff; (split; [lia|done]).
Qed.

Lemma remove_dups_NoDup {A} `{EqDecision A} (l : list A) :
  NoDup l → remove_dups l = l.
Proof.
  induction 1 as [|x l Hx _ IH]; simpl; [done|].
  destruct (decide_rel _ x l); [done|]. by rewrite IH.
Qed.

(** On increasing edges [searchsorted] splits them: the edges before the
    index are [<= x], the edges from the index on are [> x]. *)
Lemma searchsorted_right_spec es x :
  strictly_increasing es = true →
  ∀ j a, es !! j = Some a →
         (a ≤ x)%Z ↔ j < searchsorted_right (Some <$> es) x.
Proof.
  induction es as [|e es IH]; intros Hinc j a Hj; [done|].
  cbn [fmap list_fmap searchsorted_right].
  destruct (e <=? x)%Z eqn:Hex.
  - apply Z.leb_le in Hex. destruct j as [|j]; simpl in Hj.
    + simplify_eq. split; [lia|done].
    + rewrite (IH (strictly_increasing_tail _ _ Hinc) j a Hj). lia.
  - apply Z.leb_gt in Hex. split; [|lia]. intros Hax. exfalso.
    destruct j as [|j]; simpl in Hj; [simplify_eq; lia|].
    apply list_elem_of_lookup_2 in Hj.
    pose proof (strictly_increasing_above e es a Hinc Hj). lia.
Qed.

Lemma searchsorted_right_le es x :
  searchsorted_right (Some <$> es) x ≤ length es.
Proof.
  induction es as [|e es IH]; [done|].
  change (searchsorted_right (Some <$> e :: es) x)
    with (if (e <=? x)%Z then S (searchsorted_right (Some <$> es) x) else 0).
  destruct (e <=? x)%Z; simpl; lia.
Qed.

(** The bins are the half-open intervals between neighbouring edges: a
    value gets the code [i] exactly when [edge i <= x < edge (i+1)]. *)
Lemma bin_code_interval es x i :
  strictly_increasing es = true →
  bin_code (Some <$> es) x = Some i
  ↔ ∃ a b, es !! i = Some a ∧ es !! S i = Some b ∧ (a ≤ x < b)%Z.
Proof.
  intros Hinc. unfold bin_code. rewrite length_fmap.
  pose proof (searchsorted_right_le es x) as Hle.
  pose proof (searchsorted_right_spec es x Hinc) as Hspec.
  set (ids := searchsorted_right (Some <$> es) x) in *.
  split.
  - destruct (ids =? 0) eqn:H0; [done|].
    destruct (ids =? length es) eqn:Hn; [done|]. simpl.
    apply Nat.eqb_neq in H0, Hn. intros [= <-].
    destruct (lookup_lt_is_Some_2 es (ids - 1)) as [a Ha]; [lia|].
    destruct (lookup_lt_is_Some_2 es ids) as [b Hb]; [lia|].
    exists a, b. replace (S (ids - 1)) with ids by lia.
    repeat split; [done..| |].
    + apply (Hspec _ _ Ha). lia.
    + destruct (decide (b ≤ x)%Z) as [Hbx|]; [|lia].
      apply (Hspec _ _ Hb) in Hbx. lia.
  - intros (a & b & Ha & Hb & Hax & Hxb).
    apply (Hspec _ _ Ha) in Hax.
    assert (¬ S i < ids) as Hsi by (rewrite <- (Hspec _ _ Hb); lia).
    apply lookup_lt_Some in Hb.
    assert (ids = S i) as -> by lia.
    destruct (S i =? 0) eqn:H0; [by apply Nat.eqb_eq in H0|].
    destruct (S i =? length es) eqn:Hn; [apply Nat.eqb_eq in Hn; lia|].
    simpl. f_equal. lia.
Qed.

Lemma bin_code_in_range es a0 b x :
  strictly_increasing es = true →
  es !! 0 = Some a0 → last es = Some b →
  (a0 ≤ x < b)%Z →
  ∃ i, S i < length es ∧ bin_code (Some <$> es) x = Some i.
Proof.
  intros Hinc H0 Hlast [Hlo Hhi]. unfold bin_code. rewrite length_fmap.
  pose proof (searchsorted_right_le es x) as Hle.
  pose proof (searchsorted_right_spec es x Hinc) as Hspec.
  set (ids := searchsorted_right (Some <$> es) x) in *.
  apply (Hspec _ _ H0) in Hlo.
  rewrite last_lookup in Hlast.
  assert (¬ pred (length es) < ids) as Hlt
    by (rewrite <- (Hspec _ _ Hlast); lia).
  apply lookup_lt_Some in H0.
  destruct (ids =? 0) eqn:Hz; [apply Nat.eqb_eq in Hz; lia|].
  destruct (ids =? length es) eqn:Hn; [apply Nat.eqb_eq in Hn; lia|].
  simpl. exists (ids - 1). split; [lia|done].
Qed.

(** *** Counting *)

Lemma total_players_sum {A} (f g : A → nat) (l : list A) :
  total_players ((λ i, f i + g i) <$> l)
  = total_players (f <$> l) + total_players (g <$> l).
Proof. induction l as [|x l IH]; [done|]. rewrite !fmap_cons. simpl. lia. Qed.

Lemma total_players_zeros {A} (l : list A) :
  total_players ((λ _, 0) <$> l) = 0.
Proof. induction l as [|x l IH]; [done|]. by rewrite fmap_cons. Qed.

Lemma indicator_sum (c : option nat) n :
  total_players ((λ i, if decide (c = Some i) then 1 else 0) <$> seq 0 n)
  = match c with
    | Some k => if decide (k < n) then 1 else 0
    | None => 0
    end.
Proof.
  induction n as [|n IH]; [by destruct c|].
  rewrite seq_S, fmap_app, total_players_app, IH. simpl.
  destruct c as [k|]; [|done].
  destruct (decide (k = n)) as [-> | Hne].
  - rewrite (decide_True (P := Some n = Some n)) by done.
    repeat case_decide; lia.
  - rewrite (decide_False (P := Some k = Some n)) by congruence.
    repeat case_decide; lia.
Qed.

(** Values that all have a category are all counted. *)
Lemma value_counts_total bin_labels ranked_bins :
  Forall (λ c, ∃ k, c = Some k ∧ k < length bin_labels) ranked_bins →
  total_players (value_counts_reindex bin_labels ranked_bins)
  = length ranked_bins.
Proof.
  unfold value_counts_reindex. rewrite imap_seq_0.
  induction 1 as [|c cs (k & -> & Hk) _ IH].
  - apply total_players_zeros.
  - erewrite (Forall_fmap_ext_1 _ (λ i, (if decide (Some k = Some i) then 1 else 0)
                                        + length (filter (λ c, c = Some i) cs))).
    + rewrite total_players_sum, indicator_sum, IH.
      rewrite decide_True by done. done.
    + apply Forall_forall. intros i _. rewrite filter_cons.
      by destruct (decide (Some k = Some i)).
Qed.

(** *** The maximum of a column *)

Lemma foldl_max_spec acc l :
  (acc ≤ foldl Z.max acc l)%Z
  ∧ (∀ y, y ∈ l → (y ≤ foldl Z.max acc l)%Z)
  ∧ (foldl Z.max acc l = acc ∨ foldl Z.max acc l ∈ l).
Proof.
  revert acc. induction l as [|x l IH]; intros acc; simpl.
  - split; [lia|]. split; [by intros y ?%elem_of_nil | by left].
  - destruct (IH (Z.max acc x)) as (Hacc & Hin & Hmem).
    split; [lia|]. split.
    + intros y [-> | Hy]%elem_of_cons; [lia | by apply Hin].
    + destruct Hmem as [-> | Hmem].
      * destruct (Z.max_spec acc x) as [[_ ->] | [_ ->]]; [right; left | by left].
      * right. by right.
Qed.

Lemma series_max_spec xs m :
  series_max xs = Some m → m ∈ xs ∧ ∀ x, x ∈ xs → (x ≤ m)%Z.
Proof.
  destruct xs as [|x rest]; [done|]. simpl. intros [= <-].
  destruct (foldl_max_spec x rest) as (Hx & Hrest & Hmem). split.
  - destruct Hmem as [-> | Hmem]; [left | by right].
  - intros y [-> | Hy]%elem_of_cons; [done | by apply Hrest].
Qed.

(** *** The data the binning is made for *)

(** When the maximum score is at or above the last lower bound and no
    score is below the first, [pd.cut] accepts the edges, every score falls
    into the one half-open interval that contains it, the maximum falls into
    the top one, and the counts add up to the number of scores. *)
Lemma binning_covers_every_score chk lower_bounds bin_labels scores l0 m :
  strictly_increasing (lower_bounds ++ [Z.succ m]) = true →
  series_max scores = Some m →
  (INT64_MIN ≤ m < INT64_MAX)%Z →
  NoDup bin_labels →
  length bin_labels = length lower_bounds →
  lower_bounds !! 0 = Some l0 →
  Forall (λ x, l0 ≤ x)%Z scores →
  let edges := lower_bounds ++ [Z.succ m] in
  rank_counts chk lower_bounds bin_labels scores
  = Ok (value_counts_reindex bin_labels (bin_code (Some <$> edges) <$> scores))
  ∧ total_players
      (value_counts_reindex bin_labels (bin_code (Some <$> edges) <$> scores))
    = length scores
  ∧ bin_code (Some <$> edges) m = Some (length lower_bounds - 1)
  ∧ ∀ x, x ∈ scores →
         ∃ i a b, bin_code (Some <$> edges) x = Some i
                  ∧ i < length bin_labels
                  ∧ edges !! i = Some a ∧ edges !! S i = Some b
                  ∧ (a ≤ x < b)%Z.
Proof.
  intros Hinc Hmax Hrange Hlabels Hlen Hl0 Hlow edges.
  destruct (series_max_spec _ _ Hmax) as [Hm Hle].
  assert (edges !! 0 = Some l0) as He0
    by (subst edges; rewrite lookup_app_l; [done | by eapply lookup_lt_Some]).
  assert (last edges = Some (Z.succ m)) as Helast by apply last_snoc.
  assert (length edges = S (length lower_bounds)) as Helen
    by (subst edges; rewrite length_app; simpl; lia).
  assert (∀ x, x ∈ scores →
               ∃ i, S i < length edges ∧ bin_code (Some <$> edges) x = Some i)
    as Hcode.
  { intros x Hx. apply (bin_code_in_range edges l0 (Z.succ m)); try done.
    split; [by apply (proj1 (Forall_forall _ _) Hlow) |].
    specialize (Hle x Hx). lia. }
  split; [|split; [|split]].
  - unfold rank_counts. rewrite Hmax. simpl. rewrite (int64_add_succ m Hrange).
    change [Some (Z.succ m)] with (Some <$> [Z.succ m]).
    rewrite <- fmap_app. fold edges. unfold pd_cut.
    rewrite (strictly_increasing_bins chk edges Hinc). simpl.
    rewrite (remove_dups_NoDup (Some <$> edges)).
    2:{ apply NoDup_fmap; [apply _|]. by apply strictly_increasing_NoDup. }
    rewrite Nat.ltb_irrefl. simpl.
    rewrite (remove_dups_NoDup bin_labels Hlabels), Nat.eqb_refl. simpl.
    rewrite length_fmap, Helen, Hlen.
    replace (S (length lower_bounds) - 1) with (length lower_bounds) by lia.
    by rewrite Nat.eqb_refl.
  - rewrite value_counts_total; [by rewrite length_fmap|].
    apply Forall_fmap, Forall_forall. intros x Hx. simpl.
    destruct (Hcode x Hx) as (i & Hi & ->). exists i. split; [done | lia].
  - apply bin_code_interval; [done|].
    assert (0 < length lower_bounds) by (by eapply lookup_lt_Some).
    destruct (lookup_lt_is_Some_2 lower_bounds (length lower_bounds - 1))
      as [a Ha]; [lia|].
    exists a, (Z.succ m). subst edges. split; [|split].
    + by rewrite lookup_app_l by lia.
    + rewrite lookup_app_r by lia.
      by replace (S (length lower_bounds - 1) - length lower_bounds) with 0 by lia.
    + split; [|lia].
      assert (a < Z.succ m)%Z; [|lia].
      apply (strictly_increasing_last lower_bounds (Z.succ m) a Hinc).
      by eapply list_elem_of_lookup_2.
  - intros x Hx. destruct (Hcode x Hx) as (i & Hi & Hbin).
    apply bin_code_interval in Hbin as Hint; [|done].
    destruct Hint as (a & b & Ha & Hb & Hab).
    exists i, a, b. repeat split; try done; lia.
Qed.

(** *** Percentages *)

Lemma plot_percentage_line c total :
  0 < total → plot_percentage c total = line_percentage c total.
Proof. intros Ht. unfold plot_percentage. by destruct total; [lia|]. Qed.

(** With somebody counted, the percentages of all bins add up to 100, as
    numbers: the floats do so up to rounding. *)
Lemma line_percentages_sum counts :
  0 < total_players counts →
  np_sum ((λ c, line_percentage c (total_players counts)) <$> counts)
  = Fin (Qc_of_Z 100).
Proof.
  intros Ht. rewrite np_sum_line_percentage, line_percentage_fin by done.
  apply (f_equal Fin). field. by apply Qc_of_nat_pos.
Qed.

Lemma plot_percentages_sum counts :
  0 < total_players counts →
  np_sum ((λ c, plot_percentage c (total_players counts)) <$> counts)
  = Fin (Qc_of_Z 100).
Proof.
  intros Ht. rewrite <- (line_percentages_sum counts Ht). f_equal.
  apply Forall_fmap_ext_1, Forall_forall. intros c _.
  by apply plot_percentage_line.
Qed.

(** C1: on the empty data frame the maximum score is NaN, and so is the
    last bin edge.  Where [pd.cut] lets that edge pass, every count is 0
    and [rivals2_plot] guards its percentages, which are 0, while
    [rivals2_line_plot] divides 0 by 0: its percentages and cumulative
    percentages are NaN.  Where [pd.cut] tests the bins as an index, both
    functions raise [ValueError] before counting. *)
Theorem empty_dataset_statistics :
  rivals2_plot DiffNotNegative [] = Ok ((λ l, Bar l 0 (Fin 0%Qc)) <$> plot_labels)
  ∧ rivals2_line_plot DiffNotNegative []
    = Ok ((λ l, Division l 0 NaN NaN) <$> line_labels)
  ∧ rivals2_plot MonotonicIndex [] = Raise ValueError
  ∧ rivals2_line_plot MonotonicIndex [] = Raise ValueError.
Proof. repeat split; by vm_compute. Qed.

(** C2: the last edge is the maximum score plus one whatever that
    maximum is.  A data frame whose only score is 100 makes the edges end
    in [1500; 101], which [pd.cut] rejects: no score is binned.  With the
    maximum at or above the last lower bound the top bin takes it:
    scores 0, 399, 400, 1500 under the bounds 0, 400, 1500 are counted
    2, 1, 1. *)
Theorem maximum_below_top_bound_is_rejected chk :
  rank_counts chk plot_lower_bounds plot_labels [100%Z] = Raise ValueError
  ∧ rank_counts chk line_lower_bounds line_labels [100%Z] = Raise ValueError
  ∧ rank_counts chk [0; 400; 1500]%Z ["A"; "B"; "C"]%string
      [0; 399; 400; 1500]%Z = Ok [2; 1; 1]
  ∧ bin_code (Some <$> [0; 400; 1500; 1501]%Z) 1500 = Some 2.
Proof. destruct chk; repeat split; by vm_compute. Qed.

(** C4: the bounds of [rivals2_plot] and [rivals2_line_plot] are strictly
    increasing, and still the data decide whether they raise: a single
    score of 1499 makes the last two edges equal and [pd.cut] raises
    [ValueError], a single score of 1500 is counted in the top bin. *)
Theorem binner_raises_on_dataset_content chk :
  rivals2_plot chk [Entry 1 "a" 1499%Z] = Raise ValueError
  ∧ rivals2_line_plot chk [Entry 1 "a" 1499%Z] = Raise ValueError
  ∧ rank_counts chk plot_lower_bounds plot_labels [1500%Z]
    = Ok [0; 0; 0; 0; 0; 0; 0; 0; 0; 0; 0; 0; 1]
  ∧ rank_counts chk line_lower_bounds line_labels [1500%Z]
    = Ok [0; 0; 0; 0; 0; 0; 1].
Proof. destruct chk; repeat split; by vm_compute. Qed.

(** C7: [rivals2_plot] computes [count / total * 100] behind a guard that
    yields 0 for a total of 0; [rivals2_line_plot] computes the same
    quotient without the guard, so a total of 0 yields NaN, as on the
    empty data frame (unless [pd.cut] has raised before).  For any other
    total both agree; counts 3 and 1 give 75 and 25.  A data frame whose
    maximum is below 1500 gets no percentages at all. *)
Theorem line_percentage_has_no_guard :
  plot_percentage 0 0 = Fin 0%Qc
  ∧ line_percentage 0 0 = NaN
  ∧ (∀ chk, match rivals2_line_plot chk [] with
            | Ok ds => Forall (λ d, div_percentage d = NaN) ds
            | Raise e => e = ValueError
            | OutOfFuel => False
            end)
  ∧ (∀ c total, total ≠ 0 →
       plot_percentage c total
       = Fin (Qc_of_nat c / Qc_of_nat total * Qc_of_Z 100)%Qc
       ∧ line_percentage c total = plot_percentage c total)
  ∧ bar_percentage <$> bars ["A"; "B"]%string [3; 1]
    = [Fin (Qc_of_Z 75); Fin (Qc_of_Z 25)]
  ∧ (∀ chk, rivals2_plot chk [Entry 1 "a" 100%Z] = Raise ValueError
            ∧ rivals2_line_plot chk [Entry 1 "a" 100%Z] = Raise ValueError).
Proof.
  split; [done|]. split; [done|]. split; [|split; [|split]].
  - intros []; vm_compute; [|done]. repeat constructor.
  - intros c total Ht. rewrite plot_percentage_line by lia.
    split; [|done]. apply line_percentage_fin. lia.
  - apply (bool_decide_unpack _). by vm_compute.
  - intros []; split; by vm_compute.
Qed.

(** *** The two plots on the data they are made for *)

Lemma bars_fields bin_labels counts :
  length bin_labels = length counts →
  bar_label <$> bars bin_labels counts = bin_labels
  ∧ bar_count <$> bars bin_labels counts = counts
  ∧ bar_percentage <$> bars bin_labels counts
    = (λ c, plot_percentage c (total_players counts)) <$> counts.
Proof.
  unfold bars. generalize (total_players counts) as total. intros total.
  revert counts. induction bin_labels as [|l ls IH];
    intros [|c counts] Hlen; simplify_eq/=; [done|].
  destruct (IH counts) as (? & ? & ?); [done|]. repeat split; by f_equal.
Qed.

Lemma plot_bounds_increase m :
  (1500 ≤ m)%Z → strictly_increasing (plot_lower_bounds ++ [Z.succ m]) = true.
Proof.
  intros Hm. cbn. rewrite !andb_true_r. apply Z.ltb_lt. lia.
Qed.

Lemma line_bounds_increase m :
  (1500 ≤ m)%Z → strictly_increasing (line_lower_bounds ++ [Z.succ m]) = true.
Proof.
  intros Hm. cbn. rewrite !andb_true_r. apply Z.ltb_lt. lia.
Qed.

(** With no negative score and a maximum of 1500 or more, short of the
    largest int64, [rivals2_plot]
    counts every player, in the order of its labels, and its percentages
    add up to 100. *)
Lemma rivals2_plot_counts_everyone chk combined_df m :
  series_max (score <$> combined_df) = Some m →
  (1500 ≤ m < INT64_MAX)%Z →
  Forall (λ e, 0 ≤ score e)%Z combined_df →
  ∃ bs, rivals2_plot chk combined_df = Ok bs
        ∧ bar_label <$> bs = plot_labels
        ∧ total_players (bar_count <$> bs) = length combined_df
        ∧ np_sum (bar_percentage <$> bs) = Fin (Qc_of_Z 100).
Proof.
  intros Hmax [Hm Htop] Hpos.
  destruct (binning_covers_every_score chk plot_lower_bounds plot_labels
              (score <$> combined_df) 0%Z m) as (Hrun & Htotal & _).
  { by apply plot_bounds_increase. }
  { done. }
  { unfold INT64_MIN. lia. }
  { apply (bool_decide_unpack _). by vm_compute. }
  { done. }
  { done. }
  { by apply Forall_fmap. }
  rewrite length_fmap in Htotal.
  unfold rivals2_plot, rivals2_plot_with. rewrite Hrun. eexists. split; [done|].
  destruct (bars_fields plot_labels
              (value_counts_reindex plot_labels
                 (bin_code (Some <$> plot_lower_bounds ++ [Z.succ m])
                    <$> (score <$> combined_df)))) as (-> & -> & ->).
  { by rewrite value_counts_reindex_length. }
  split; [done|]. split; [done|].
  apply plot_percentages_sum. rewrite Htotal.
  destruct combined_df; [done | simpl; lia].
Qed.

(** The same for [rivals2_line_plot]. *)
Lemma rivals2_line_plot_counts_everyone chk combined_df m :
  series_max (score <$> combined_df) = Some m →
  (1500 ≤ m < INT64_MAX)%Z →
  Forall (λ e, 0 ≤ score e)%Z combined_df →
  ∃ ds, rivals2_line_plot chk combined_df = Ok ds
        ∧ div_label <$> ds = line_labels
        ∧ total_players (div_count <$> ds) = length combined_df
        ∧ np_sum (div_percentage <$> ds) = Fin (Qc_of_Z 100).
Proof.
  intros Hmax [Hm Htop] Hpos.
  destruct (binning_covers_every_score chk line_lower_bounds line_labels
              (score <$> combined_df) 0%Z m) as (Hrun & Htotal & _).
  { by apply line_bounds_increase. }
  { done. }
  { unfold INT64_MIN. lia. }
  { apply (bool_decide_unpack _). by vm_compute. }
  { done. }
  { done. }
  { by apply Forall_fmap. }
  rewrite length_fmap in Htotal.
  unfold rivals2_line_plot, rivals2_line_plot_with. rewrite Hrun.
  eexists. split; [done|].
  destruct (divisions_fields line_labels
              (value_counts_reindex line_labels
                 (bin_code (Some <$> line_lower_bounds ++ [Z.succ m])
                    <$> (score <$> combined_df)))) as (-> & -> & -> & _).
  { by rewrite value_counts_reindex_length. }
  split; [done|]. split; [done|].
  apply line_percentages_sum. rewrite Htotal.
  destruct combined_df; [done | simpl; lia].
Qed.

(** A maximum below 1500 is rejected by both plots. *)
Lemma low_maximum_is_rejected chk scores m :
  series_max scores = Some m →
  (INT64_MIN ≤ m < 1500)%Z →
  rank_counts chk plot_lower_bounds plot_labels scores = Raise ValueError
  ∧ rank_counts chk line_lower_bounds line_labels scores = Raise ValueError.
Proof.
  intros Hmax Hm. unfold rank_counts. rewrite Hmax.
  cbn [fmap option_fmap option_map]. rewrite int64_add_succ
    by (unfold INT64_MAX; lia).
  destruct (decide (m = 1499%Z)) as [-> | Hne].
  - destruct chk; split; by vm_compute.
  - assert ((1500 <=? Z.succ m)%Z = false) as Hlt by (apply Z.leb_gt; lia).
    unfold pd_cut. destruct chk; cbn; rewrite Hlt; done.
Qed.


End StatsFacts.

(** *** The examples in binary64

    [npfloat] computes with exact rationals.  In binary64 the examples of
    the specification come out exactly; in general the sum of the rounded
    percentages and the rounded quotient of the summed counts differ, as
    for three bins of one player each. *)

(** On an empty data frame the quotient is 0/0, which is NaN in binary64
    as it is in [npfloat], and so are the percentages of
    [rivals2_line_plot]. *)
Lemma binary64_zero_total_is_nan :
  PrimFloat.is_nan (Binary64.percentage 0 0) = true
  ∧ forallb PrimFloat.is_nan (Binary64.line_percentages [0; 0; 0]%nat) = true
  ∧ forallb PrimFloat.is_nan (Binary64.cumulative_top_percentage [0; 0; 0]%nat)
    = true.
Proof. repeat split; by vm_compute. Qed.

Lemma binary64_three_of_four :
  Binary64.percentage 3 4 = Binary64.of_count 75
  ∧ Binary64.percentage 1 4 = Binary64.of_count 25
  ∧ Binary64.sum [Binary64.percentage 3 4; Binary64.percentage 1 4]
    = Binary64.of_count 100.
Proof. repeat split; by vm_compute. Qed.

Lemma binary64_fifty_thirty_twenty :
  Binary64.percentage 5 10 = Binary64.of_count 50
  ∧ Binary64.percentage 3 10 = Binary64.of_count 30
  ∧ Binary64.percentage 2 10 = Binary64.of_count 20
  ∧ Binary64.percentage (3 + 2) 10
    = Binary64.sum [Binary64.percentage 3 10; Binary64.percentage 2 10]
  ∧ Binary64.percentage (5 + 3 + 2) 10
    = Binary64.sum [Binary64.percentage 5 10; Binary64.percentage 3 10;
                    Binary64.percentage 2 10].
Proof. repeat split; by vm_compute. Qed.

(** Three divisions of one player each: the cumulative top percentage of
    the first is 100.0, the sum of the three percentages
    99.99999999999999. *)
Lemma thirds_do_not_add_up :
  Binary64.cumulative_top_percentage [1; 1; 1]%nat
  ≠ Binary64.suffix_sums (Binary64.line_percentages [1; 1; 1]%nat)
  ∧ head (Binary64.cumulative_top_percentage [1; 1; 1]%nat)
    = Some (Binary64.of_count 100)
  ∧ ∃ x, head (Binary64.suffix_sums (Binary64.line_percentages [1; 1; 1]%nat))
         = Some x
         ∧ PrimFloat.ltb x (Binary64.of_count 100) = true.
Proof.
  split; [|split; [by vm_compute|]].
  - intros Heq.
    assert ((λ l, match l with
                  | x :: _ => PrimFloat.eqb x (Binary64.of_count 100)
                  | [] => false
                  end) (Binary64.cumulative_top_percentage [1; 1; 1]%nat)
            = (λ l, match l with
                    | x :: _ => PrimFloat.eqb x (Binary64.of_count 100)
                    | [] => false
                    end)
                (Binary64.suffix_sums (Binary64.line_percentages [1; 1; 1]%nat)))
      as Hhead by (by rewrite Heq).
    vm_compute in Hhead. discriminate.
  - eexists. split; by vm_compute.
Qed.

Lemma binary64_thirds_round :
  Binary64.percentage (1 + 1 + 1) 3 = Binary64.of_count 100
  ∧ PrimFloat.ltb
      (Binary64.sum [Binary64.percentage 1 3; Binary64.percentage 1 3;
                     Binary64.percentage 1 3])
      (Binary64.of_count 100) = true.
Proof. split; by vm_compute. Qed.

(** ** More about ingestion *)

Section IngestMore.

Variable server : string → response.
Variable listdir : dir_enum.

(** *** What a download leaves alone *)

Lemma download_loop_only_adds fuel :
  ∀ loc w dir,
    xml_cache w = Some dir →
    let w' := (download_loop server fuel loc w).2 in
    df_cache w' = df_cache w
    ∧ requests w `prefix_of` requests w'
    ∧ ∃ dir', xml_cache w' = Some dir' ∧ dom dir ⊆ dom dir'.
Proof.
  induction fuel as [|fuel IH]; intros [url|] w dir Hdir; simpl;
    try (split; [done|]; split; [done|]; exists dir; split; done).
  unfold bind, requests_get_text.
  assert (requests w `prefix_of` requests w ++ [url]) as Hpre
    by apply prefix_app_r, reflexivity.
  destruct (server url) as [|status [|d]]; simpl;
    try (split; [done|]; split; [done|]; exists dir; split; done).
  destruct (entryStart d) as [[s|]|]; simpl;
    try (split; [done|]; split; [done|]; exists dir; split; done).
  destruct (entryEnd d) as [[e|]|]; simpl;
    try (split; [done|]; split; [done|]; exists dir; split; done).
  match goal with
  | |- context [write_file ?n ?r ?w'] =>
      destruct (write_file_cases n r w' dir Hdir) as [[e' ->] | [file ->]]
  end; simpl;
    try (split; [done|]; split; [done|]; exists dir; split; done).
  set (dir1 := <[file := Xml d]> dir).
  assert (dom dir ⊆ dom dir1) as Hsub.
  { subst dir1. rewrite dom_insert. apply union_subseteq_r. }
  destruct (nextRequestURL d) as [[u|]|]; simpl;
    try (split; [done|]; split; [done|]; exists dir1; split; done).
  - destruct (IH (Some (Str.strip u))
                {| xml_cache := Some dir1; df_cache := df_cache w;
                   requests := requests w ++ [url] |} dir1 eq_refl)
      as (Hdf & Hreq & dir' & Hdir' & Hdom). simpl in *.
    split; [done|]. split; [by etrans|]. exists dir'. split; [done|]. by etrans.
  - destruct (IH None
                {| xml_cache := Some dir1; df_cache := df_cache w;
                   requests := requests w ++ [url] |} dir1 eq_refl)
      as (Hdf & Hreq & dir' & Hdir' & Hdom). simpl in *.
    split; [done|]. split; [by etrans|]. exists dir'. split; [done|]. by etrans.
Qed.

(** X6: whatever the server sends and however the download ends, it leaves
    [df.pkl] alone, only appends to the request log, and every file that
    was in the cache directory before is there afterwards. *)
Theorem download_xml_never_deletes fuel w dir :
  xml_cache w = Some dir →
  let w' := (download_xml server fuel w).2 in
  df_cache w' = df_cache w
  ∧ requests w `prefix_of` requests w'
  ∧ ∃ dir', xml_cache w' = Some dir'
            ∧ ∀ name, is_Some (dir !! name) → is_Some (dir' !! name).
Proof.
  intros Hdir w'.
  destruct (download_loop_only_adds fuel (Some first_url) w dir Hdir)
    as (Hdf & Hreq & dir' & Hdir' & Hdom).
  split; [done|]. split; [done|]. exists dir'. split; [done|].
  intros name Hname. apply elem_of_dom, Hdom, elem_of_dom, Hname.
Qed.

(** *** Running twice *)

(** X1: once [get_leaderboard_df] has returned a data frame, every later
    call, against any server, returns the same data frame and changes
    nothing: the pickle written by the first call is what the second
    reads. *)
Theorem get_leaderboard_df_again fuel w df w' :
  get_leaderboard_df server listdir fuel w = (Ok df, w') →
  ∀ (server' : string → response) (listdir' : dir_enum) fuel',
    get_leaderboard_df server' listdir' fuel' w' = (Ok df, w').
Proof.
  unfold get_leaderboard_df at 1.
  destruct (df_cache w) as [df0|] eqn:Hdf.
  - intros [= <- <-] server' listdir' fuel'.
    unfold get_leaderboard_df. by rewrite Hdf.
  - unfold bind, to_pickle, ret.
    destruct (xml_to_df server listdir fuel w) as [[df1| |] w1]; [|done..].
    intros [= <- <-] server' listdir' fuel'. done.
Qed.

(** *** Downloading without a cache directory *)

Lemma download_loop_fetch_error fuel u e w :
  fetch_error (server u) = Some e →
  download_loop server (S fuel) (Some u) w =
    (Raise e, {| xml_cache := xml_cache w; df_cache := df_cache w;
                 requests := requests w ++ [u] |}).
Proof.
  intros Herr. simpl. unfold bind, requests_get_text.
  destruct (server u) as [|status [|d]]; simpl in *; simplify_eq; [done..|].
  destruct (entryStart d) as [[s|]|]; simpl in *;
    [destruct (entryEnd d) as [[e'|]|]; simpl in * | |]; by simplify_eq.
Qed.


(** X2: [download_xml] run before the cache directory exists makes one
    request and raises: the exception of the failed fetch if the fetch
    fails; if a page arrived, the exception of [open], which is
    [FileNotFoundError] for want of the directory, or [OSError] when the
    range of the page makes the path too long to be looked at.  Nothing
    is written and the directory still does not exist. *)
Theorem download_xml_without_directory fuel w :
  xml_cache w = None →
  let w' := {| xml_cache := None; df_cache := df_cache w;
               requests := requests w ++ [first_url] |} in
  (∀ e, fetch_error (server first_url) = Some e →
        download_xml server (S fuel) w = (Raise e, w'))
  ∧ (∀ status d s e,
       server first_url = Response status (Xml d) →
       entryStart d = Some (Some s) →
       entryEnd d = Some (Some e) →
       download_xml server (S fuel) w =
         (Raise (if (PATH_MAX <=? String.length
                       (XML_CACHE +:+ "/" +:+ Str.strip s +:+ "-"
                        +:+ Str.strip e +:+ ".xml"))%nat
                 then OSError else FileNotFoundError), w')).
Proof.
  intros Hnone w'. split.
  - intros e Herr. unfold download_xml.
    rewrite (download_loop_fetch_error _ _ e _ Herr). subst w'.
    by rewrite Hnone.
  - intros status d s e Hsrv Hs He. unfold download_xml. cbn [download_loop].
    unfold bind at 1. unfold requests_get_text. rewrite Hsrv.
    unfold bind at 1. cbn [et_fromstring ret]. rewrite Hs, He.
    unfold bind at 1. cbn [text_strip ret].
    unfold bind at 1. cbn [text_strip ret].
    unfold bind at 1. unfold write_file, page_file. cbn [xml_cache].
    rewrite Hnone. subst w'.
    by destruct (PATH_MAX <=? _)%nat.
Qed.

(** *** A server that never stops *)



(** *** Pages that share a range *)

Lemma save_pages_last_wins dir ps1 p ps2 :
  Forall (λ q, page_key q ≠ page_key p) ps2 →
  save_pages dir (ps1 ++ p :: ps2) !! page_key p = Some (Xml (page_doc p)).
Proof.
  intros Hlater. unfold save_pages. rewrite foldl_app. simpl.
  fold (save_pages dir ps1).
  fold (save_pages (<[page_key p := Xml (page_doc p)]> (save_pages dir ps1)) ps2).
  rewrite save_pages_lookup_other; [apply lookup_insert_eq|].
  intros (q & Hkey & Hq)%list_elem_of_fmap.
  by apply (proj1 (Forall_forall _ _) Hlater q Hq).
Qed.

Lemma save_pages_size dir ps :
  (size (save_pages dir ps) ≤ size dir + length ps)%nat.
Proof.
  induction ps as [|q ps IH] using rev_ind; [simpl; lia|].
  rewrite save_pages_snoc, length_app, map_size_insert. simpl.
  destruct (save_pages dir ps !! page_key q); simpl; lia.
Qed.

(** X4: the file name is all that tells the pages apart.  When the server
    sends a range again, the later page replaces the earlier one: after
    the download of pages whose ranges make file names of the cache
    directory, the file [start-end.xml] of a page holds that page unless a
    later page has the same stripped range, and the directory has grown by
    at most one file per page. *)
Theorem download_xml_later_page_wins ps1 p ps2 w dir extra :
  let name := λ p, Str.strip (range_start p) +:+ "-"
                   +:+ Str.strip (range_end p) +:+ ".xml" in
  page_chain server (Some first_url) (ps1 ++ p :: ps2) None →
  Forall (λ q, file_name_ok (name q) = true) (ps1 ++ p :: ps2) →
  Forall (λ q, name q ≠ name p) ps2 →
  xml_cache w = Some dir →
  ∃ dir',
    download_xml server (length (ps1 ++ p :: ps2) + extra) w
    = (Ok tt, {| xml_cache := Some dir'; df_cache := df_cache w;
                 requests := requests w
                             ++ locators (Some first_url) (ps1 ++ p :: ps2) |})
    ∧ dir' !! name p = Some (Xml (page_doc p))
    ∧ (size dir' ≤ size dir + length (ps1 ++ p :: ps2))%nat.
Proof.
  intros name Hchain Hnames Hlater Hdir.
  exists (save_pages dir (ps1 ++ p :: ps2)).
  split; [|split].
  - unfold download_xml.
    rewrite (download_loop_chain _ _ _ _ Hchain Hnames extra w dir Hdir).
    apply download_loop_done.
  - by apply save_pages_last_wins.
  - apply save_pages_size.
Qed.

(** *** A next-page element without text *)

(** X5: the page is written before the next locator is read.  A document
    whose [nextRequestURL] element is empty, and whose range makes a file
    name of the cache directory, is therefore saved, and only then does
    the loop raise [AttributeError]. *)
Theorem empty_next_element_is_saved_then_raises fuel url status d s e w dir :
  server url = Response status (Xml d) →
  entryStart d = Some (Some s) →
  entryEnd d = Some (Some e) →
  nextRequestURL d = Some None →
  file_name_ok (Str.strip s +:+ "-" +:+ Str.strip e +:+ ".xml") = true →
  xml_cache w = Some dir →
  download_loop server (S fuel) (Some url) w =
    (Raise AttributeError,
     {| xml_cache :=
          Some (<[Str.strip s +:+ "-" +:+ Str.strip e +:+ ".xml" := Xml d]> dir);
        df_cache := df_cache w;
        requests := requests w ++ [url] |}).
Proof.
  intros Hsrv Hs He Hnext Hname Hdir. simpl.
  unfold bind, requests_get_text. rewrite Hsrv. simpl. rewrite Hs, He. simpl.
  erewrite write_file_ok by (exact Hname || exact Hdir). by rewrite Hnext.
Qed.

(** *** A range with a slash in it *)

(** X20: the range of a page is put into the path of its file as it is.
    When the file name it makes has a slash after a first part, [open]
    looks for that part as a subdirectory of the cache directory, which
    holds none: the first page of such a kind is fetched and not saved,
    [download_xml] raises [FileNotFoundError], or [NotADirectoryError] if
    the part names a cached file, and requests nothing more.  (The path
    is short of [PATH_MAX], the part is a possible file name.) *)
Theorem slash_in_range_stops_download fuel status d s e c rest w dir :
  let name := Str.strip s +:+ "-" +:+ Str.strip e +:+ ".xml" in
  server first_url = Response status (Xml d) →
  entryStart d = Some (Some s) →
  entryEnd d = Some (Some e) →
  components name = c :: rest →
  rest ≠ [] →
  c ≠ ""%string ∧ c ≠ "."%string ∧ c ≠ ".."%string →
  (String.length c ≤ NAME_MAX)%nat →
  (String.length (XML_CACHE +:+ "/" +:+ name) < PATH_MAX)%nat →
  xml_cache w = Some dir →
  download_xml server (S fuel) w =
    (Raise (match dir !! c with
            | Some _ => NotADirectoryError
            | None => FileNotFoundError
            end),
     {| xml_cache := Some dir; df_cache := df_cache w;
        requests := requests w ++ [first_url] |}).
Proof.
  intros name Hsrv Hs He Hcs Hrest (Hc1 & Hc2 & Hc3) Hlen Hpath Hdir.
  unfold download_xml. cbn [download_loop].
  unfold bind at 1. unfold requests_get_text. rewrite Hsrv.
  unfold bind at 1. cbn [et_fromstring ret].
  rewrite Hs, He.
  unfold bind at 1. cbn [text_strip ret].
  unfold bind at 1. cbn [text_strip ret].
  unfold bind at 1. unfold write_file, page_file. fold name.
  apply Nat.leb_gt in Hpath. rewrite Hpath. cbn [xml_cache]. rewrite Hdir, Hcs.
  destruct rest as [|c' rest]; [done|]. cbn [resolve].
  unfold stays.
  rewrite (bool_decide_eq_false_2 (c = ""%string)) by done.
  rewrite (bool_decide_eq_false_2 (c = "."%string)) by done.
  rewrite (bool_decide_eq_false_2 (c = ".."%string)) by done. cbn [orb].
  destruct (NAME_MAX <? String.length c)%nat eqn:Hlong;
    [apply Nat.ltb_lt in Hlong; lia|].
  by destruct (dir !! c).
Qed.

(** *** After a failed run *)

Lemma get_leaderboard_df_warm (server' : string → response) fuel w dir :
  df_cache w = None → xml_cache w = Some dir → dir ≠ ∅ →
  map_Forall (λ _ raw, file_rows raw ≠ []) dir →
  ∃ df, get_leaderboard_df server' listdir fuel w =
          (Ok df, {| xml_cache := Some dir; df_cache := Some df;
                     requests := requests w |})
        ∧ df ≡ₚ concat (file_rows <$> (map_to_list dir).*2).
Proof.
  intros Hdf Hdir Hne Hrows.
  destruct (assemble_ok listdir w dir Hdir Hne Hrows) as [Hrun Hperm].
  eexists. split; [|exact Hperm].
  unfold get_leaderboard_df. rewrite Hdf.
  unfold bind at 1. unfold xml_to_df. unfold bind at 1.
  rewrite (get_leaderboard_xml_warm server' listdir fuel w dir Hdir Hne).
  rewrite Hrun. unfold bind, to_pickle, ret. simpl. by rewrite Hdir.
Qed.

(** X7: a run that breaks off after some pages leaves them in the cache,
    and the next run takes them for the whole leaderboard.  For pages
    with at least one entry each, saved under file names of their own that
    their ranges make: the next run asks the server nothing, builds the
    data frame from the pages that made it, and pickles it. *)
Theorem interrupted_run_is_taken_for_complete ps u e w fuel :
  let name := λ p, Str.strip (range_start p) +:+ "-"
                   +:+ Str.strip (range_end p) +:+ ".xml" in
  df_cache w = None →
  xml_cache w = None ∨ xml_cache w = Some ∅ →
  page_chain server (Some first_url) ps (Some u) →
  ps ≠ [] →
  fetch_error (server u) = Some e →
  (length ps < fuel)%nat →
  Forall (λ p, file_name_ok (name p) = true) ps →
  Forall (λ p, rows p ≠ []) ps →
  NoDup (name <$> ps) →
  ∃ w1,
    get_leaderboard_df server listdir fuel w = (Raise e, w1)
    ∧ requests w1 = (requests w ++ locators (Some first_url) ps) ++ [u]
    ∧ ∀ (server' : string → response) fuel',
        ∃ df, get_leaderboard_df server' listdir fuel' w1 =
                (Ok df, {| xml_cache := xml_cache w1; df_cache := Some df;
                           requests := requests w1 |})
              ∧ df ≡ₚ concat (rows <$> ps).
Proof.
  intros name Hdf Hcold Hchain Hps Herr Hfuel Hnames Hrows Hnd.
  set (w1 := {| xml_cache := Some (save_pages ∅ ps); df_cache := df_cache w;
                requests := (requests w ++ locators (Some first_url) ps) ++ [u] |}).
  exists w1. split; [|split; [done|]].
  - unfold get_leaderboard_df. rewrite Hdf.
    unfold bind at 1. unfold xml_to_df. unfold bind at 1.
    rewrite (get_leaderboard_xml_cold server listdir fuel w Hcold).
    unfold download_xml.
    replace fuel with (length ps + S (fuel - S (length ps)))%nat by lia.
    erewrite download_loop_chain by (done || reflexivity).
    by rewrite (download_loop_fetch_error _ u e _ Herr).
  - intros server' fuel'.
    assert (map_Forall (λ _ raw, file_rows raw ≠ []) (save_pages ∅ ps)) as Hall.
    { apply map_Forall_to_list. rewrite (map_to_list_save_pages ps Hnd).
      apply Forall_fmap. eapply Forall_impl; [exact Hrows|]. by intros p Hp. }
    destruct (get_leaderboard_df_warm server' fuel' w1 (save_pages ∅ ps))
      as (df & Hrun & Hperm); [done | done | by apply save_pages_nonempty | done |].
    exists df. split; [exact Hrun|].
    rewrite Hperm, (map_to_list_save_pages ps Hnd).
    by rewrite <- !list_fmap_compose.
Qed.

(** X8: a run whose first fetch fails leaves the new directory empty, so
    the next run starts the download again, from the first URL. *)
Theorem failed_first_fetch_is_retried e w fuel fuel' :
  xml_cache w = None ∨ xml_cache w = Some ∅ →
  fetch_error (server first_url) = Some e →
  let w1 := {| xml_cache := Some ∅; df_cache := df_cache w;
               requests := requests w ++ [first_url] |} in
  get_leaderboard_xml server listdir (S fuel) w = (Raise e, w1)
  ∧ get_leaderboard_xml server listdir (S fuel') w1 =
      (Raise e, {| xml_cache := Some ∅; df_cache := df_cache w;
                   requests := requests w ++ [first_url; first_url] |}).
Proof.
  intros Hcold Herr w1. split.
  - rewrite (get_leaderboard_xml_cold server listdir _ w Hcold).
    unfold download_xml. by rewrite (download_loop_fetch_error _ _ e _ Herr).
  - rewrite (get_leaderboard_xml_cold server listdir _ w1); [|by right].
    unfold download_xml. rewrite (download_loop_fetch_error _ _ e _ Herr).
    simpl. by rewrite <- app_assoc.
Qed.

(** *** A cache with a file that is no page *)



End IngestMore.

(** *** The small leaderboard, once more *)

(** The first page stays when the download runs over a partial cache. *)
Lemma download_xml_never_deletes_witness :
  let w' := (download_xml Example.healthy 2 Example.partial).2 in
  df_cache w' = None
  ∧ [] `prefix_of` requests w'
  ∧ ∃ dir', xml_cache w' = Some dir'
            ∧ ∀ name,
                is_Some (({["1-2.xml" := Xml (page_doc Example.page1)]}
                          : gmap string xml_raw) !! name) →
                is_Some (dir' !! name).
Proof.
  exact (download_xml_never_deletes Example.healthy 2 Example.partial
           {["1-2.xml" := Xml (page_doc Example.page1)]} eq_refl).
Defined.

Lemma healthy_first_run :
  get_leaderboard_df Example.healthy storage_order 2 Example.fresh
  = (Ok (rows Example.page2 ++ rows Example.page1),
     {| xml_cache := Some (save_pages ∅ [Example.page1; Example.page2]);
        df_cache := Some (rows Example.page2 ++ rows Example.page1);
        requests := [first_url; Example.second_url] |}).
Proof. by vm_compute. Qed.

(** After the first run the server may go down: the pickle answers. *)
Lemma get_leaderboard_df_again_witness :
  let w' := {| xml_cache := Some (save_pages ∅ [Example.page1; Example.page2]);
               df_cache := Some (rows Example.page2 ++ rows Example.page1);
               requests := [first_url; Example.second_url] |} in
  get_leaderboard_df Sample.down storage_order 0 w'
  = (Ok (rows Example.page2 ++ rows Example.page1), w').
Proof.
  exact (get_leaderboard_df_again Example.healthy storage_order 2 Example.fresh
           _ _ healthy_first_run Sample.down storage_order 0).
Defined.

(** A page arrives, and there is nowhere to put it; a page with a range
    of 4100 digits is refused for its path alone. *)
Lemma download_xml_without_directory_witness :
  download_xml Example.healthy 1 Example.fresh
  = (Raise FileNotFoundError,
     {| xml_cache := None; df_cache := None; requests := [first_url] |})
  ∧ download_xml Sample.longwinded 1 Example.fresh
    = (Raise OSError,
       {| xml_cache := None; df_cache := None; requests := [first_url] |}).
Proof.
  split.
  - destruct (download_xml_without_directory Example.healthy 0 Example.fresh
                eq_refl) as [_ Hpage].
    exact (Hpage 200 (page_doc Example.page1) "1" "2" eq_refl eq_refl eq_refl).
  - destruct (download_xml_without_directory Sample.longwinded 0 Example.fresh
                eq_refl) as [_ Hpage].
    exact (Hpage 200 (page_doc Sample.page_long)
             (range_start Sample.page_long) "2" eq_refl eq_refl eq_refl).
Defined.



Lemma repeating_chain :
  page_chain Sample.repeating (Some first_url)
    ([Example.page1] ++ Sample.page1_again :: []) None.
Proof.
  eapply chain_cons; [by vm_compute|].
  eapply (chain_cons _ Example.second_url); [by vm_compute|].
  apply chain_nil.
Qed.

(** Two pages under the name [1-2.xml]: the second is the one on disk. *)
Lemma download_xml_later_page_wins_witness :
  ∃ dir',
    download_xml Sample.repeating (2 + 0) Example.empty_dir
    = (Ok tt, {| xml_cache := Some dir'; df_cache := None;
                 requests := [first_url; Example.second_url] |})
    ∧ dir' !! "1-2.xml" = Some (Xml (page_doc Sample.page1_again))
    ∧ (size dir' ≤ 0 + 2)%nat.
Proof.
  destruct (download_xml_later_page_wins Sample.repeating [Example.page1]
              Sample.page1_again [] Example.empty_dir ∅ 0 repeating_chain)
    as (dir' & Hrun & Hfile & Hsize).
  - repeat constructor.
  - constructor.
  - reflexivity.
  - exists dir'. split; [exact Hrun|]. split; [exact Hfile | exact Hsize].
Defined.

(** The page with the empty next-page element is on disk when the loop
    raises. *)
Lemma empty_next_element_is_saved_then_raises_witness :
  download_loop Sample.dangling 1 (Some first_url) Example.empty_dir
  = (Raise AttributeError,
     {| xml_cache := Some (<["1-2.xml" := Xml Sample.empty_next]> ∅);
        df_cache := None; requests := [first_url] |}).
Proof.
  exact (empty_next_element_is_saved_then_raises Sample.dangling 0 first_url
           200 Sample.empty_next "1" "2" Example.empty_dir ∅
           eq_refl eq_refl eq_refl eq_refl eq_refl eq_refl).
Defined.

(** The connection dropped at the second page; the rerun settles for the
    first. *)
Lemma interrupted_run_is_taken_for_complete_witness :
  ∃ w1,
    get_leaderboard_df Example.dropping storage_order 2 Example.fresh
    = (Raise RequestException, w1)
    ∧ requests w1 = [first_url; Example.second_url]
    ∧ ∀ (server' : string → response) fuel',
        ∃ df, get_leaderboard_df server' storage_order fuel' w1 =
                (Ok df, {| xml_cache := xml_cache w1; df_cache := Some df;
                           requests := requests w1 |})
              ∧ df ≡ₚ concat (rows <$> [Example.page1]).
Proof.
  destruct (interrupted_run_is_taken_for_complete Example.dropping storage_order
              [Example.page1] Example.second_url RequestException Example.fresh 2)
    as (w1 & Hrun & Hlog & Hnext).
  - reflexivity.
  - left; reflexivity.
  - exact dropping_chain.
  - discriminate.
  - reflexivity.
  - simpl; lia.
  - repeat constructor.
  - repeat constructor; discriminate.
  - apply (bool_decide_unpack _). by vm_compute.
  - exists w1. split; [exact Hrun|]. split; [exact Hlog | exact Hnext].
Defined.

(** The server is down on both runs: two requests for the first URL. *)
Lemma failed_first_fetch_is_retried_witness :
  get_leaderboard_xml Sample.down storage_order 1 Example.fresh
  = (Raise RequestException, {| xml_cache := Some ∅; df_cache := None;
                                requests := [first_url] |})
  ∧ get_leaderboard_xml Sample.down storage_order 1
      {| xml_cache := Some ∅; df_cache := None; requests := [first_url] |}
    = (Raise RequestException, {| xml_cache := Some ∅; df_cache := None;
                                  requests := [first_url; first_url] |}).
Proof.
  exact (failed_first_fetch_is_retried Sample.down storage_order
           RequestException Example.fresh 0 0 (or_introl eq_refl) eq_refl).
Defined.


(** ** More about the statistics *)

Section StatsMore.

Local Open Scope nat_scope.

(** *** Counts are interval counts *)

Lemma rank_counts_accepts chk lower_bounds bin_labels scores m :
  strictly_increasing (lower_bounds ++ [Z.succ m]) = true →
  series_max scores = Some m →
  (INT64_MIN ≤ m < INT64_MAX)%Z →
  NoDup bin_labels →
  length bin_labels = length lower_bounds →
  rank_counts chk lower_bounds bin_labels scores
  = Ok (value_counts_reindex bin_labels
          (bin_code (Some <$> lower_bounds ++ [Z.succ m]) <$> scores)).
Proof.
  intros Hinc Hmax Hrange Hlabels Hlen.
  unfold rank_counts. rewrite Hmax. simpl. rewrite (int64_add_succ m Hrange).
  change [Some (Z.succ m)] with (Some <$> [Z.succ m]).
  rewrite <- fmap_app. unfold pd_cut.
  rewrite (strictly_increasing_bins chk _ Hinc). simpl.
  rewrite (remove_dups_NoDup (Some <$> lower_bounds ++ [Z.succ m])).
  2:{ apply NoDup_fmap; [apply _|]. by apply strictly_increasing_NoDup. }
  rewrite Nat.ltb_irrefl. simpl.
  rewrite (remove_dups_NoDup bin_labels Hlabels), Nat.eqb_refl. simpl.
  rewrite length_fmap, length_app, Hlen. simpl.
  replace (length lower_bounds + 1 - 1) with (length lower_bounds) by lia.
  by rewrite Nat.eqb_refl.
Qed.

Lemma count_code_between es i a b scores :
  strictly_increasing es = true →
  es !! i = Some a → es !! S i = Some b →
  length (filter (λ c, c = Some i) (bin_code (Some <$> es) <$> scores))
  = count_between a b scores.
Proof.
  intros Hinc Ha Hb. unfold count_between.
  induction scores as [|x scores IH]; [done|].
  rewrite fmap_cons, !filter_cons.
  destruct (decide (bin_code (Some <$> es) x = Some i)) as [Hc | Hc].
  - apply bin_code_interval in Hc as (a' & b' & Ha' & Hb' & Hx); [|done].
    simplify_eq. rewrite decide_True by done. simpl. by rewrite IH.
  - rewrite decide_False; [done|]. intros Hx. apply Hc.
    apply bin_code_interval; [done|]. by exists a, b.
Qed.

Lemma rank_counts_between chk lower_bounds bin_labels scores m :
  strictly_increasing (lower_bounds ++ [Z.succ m]) = true →
  series_max scores = Some m →
  (INT64_MIN ≤ m < INT64_MAX)%Z →
  NoDup bin_labels →
  length bin_labels = length lower_bounds →
  let bin_edges := lower_bounds ++ [Z.succ m] in
  rank_counts chk lower_bounds bin_labels scores
  = Ok (zip_with (λ a b, count_between a b scores) bin_edges (tail bin_edges)).
Proof.
  intros Hinc Hmax Hrange Hlabels Hlen bin_edges.
  rewrite (rank_counts_accepts chk _ _ _ m Hinc Hmax Hrange Hlabels Hlen).
  f_equal. fold bin_edges. unfold value_counts_reindex.
  assert (length bin_edges = S (length lower_bounds)) as Helen
    by (subst bin_edges; rewrite length_app; simpl; lia).
  apply list_eq. intros i.
  rewrite list_lookup_imap, lookup_zip_with, lookup_tail.
  destruct (decide (i < length bin_labels)) as [Hi | Hi].
  - destruct (lookup_lt_is_Some_2 bin_labels i Hi) as [l ->].
    destruct (lookup_lt_is_Some_2 bin_edges i) as [a Ha]; [lia|].
    destruct (lookup_lt_is_Some_2 bin_edges (S i)) as [b Hb]; [lia|].
    rewrite Ha, Hb. simpl. f_equal. by apply count_code_between.
  - rewrite (lookup_ge_None_2 bin_labels i) by lia.
    rewrite (lookup_ge_None_2 bin_edges (S i)) by lia.
    by destruct (bin_edges !! i).
Qed.

(** X10: for an int64 column whose maximum [m] is not the largest int64,
    the last edge is [m + 1]; when the edges increase strictly, [pd.cut]
    accepts them and the count of each bin is the number of scores from
    its edge up to, but not including, the next edge. *)
Theorem rank_counts_are_interval_counts chk lower_bounds bin_labels scores m :
  series_max scores = Some m →
  (INT64_MIN ≤ m < INT64_MAX)%Z →
  strictly_increasing (lower_bounds ++ [Z.succ m]) = true →
  NoDup bin_labels →
  length bin_labels = length lower_bounds →
  let bin_edges := lower_bounds ++ [Z.succ m] in
  rank_counts chk lower_bounds bin_labels scores
  = Ok (zip_with (λ a b, count_between a b scores) bin_edges (tail bin_edges)).
Proof. intros Hmax Hrange Hinc. by apply rank_counts_between. Qed.

(** *** Scores below the first bound *)

Lemma count_between_split a b c scores :
  (a ≤ b)%Z → (b ≤ c)%Z →
  count_between a c scores = count_between a b scores + count_between b c scores.
Proof.
  intros Hab Hbc. unfold count_between.
  induction scores as [|x scores IH]; [done|].
  rewrite !filter_cons. repeat case_decide; simpl; lia.
Qed.

Lemma count_between_telescope a es b scores :
  strictly_increasing (a :: es ++ [b]) = true →
  total_players (zip_with (λ a b, count_between a b scores)
                   (a :: es ++ [b]) (es ++ [b]))
  = count_between a b scores.
Proof.
  revert a. induction es as [|e es IH]; intros a Hinc.
  - simpl. lia.
  - pose proof (strictly_increasing_above a ((e :: es) ++ [b]) e Hinc) as Hae.
    pose proof (strictly_increasing_above a ((e :: es) ++ [b]) b Hinc) as Hab.
    pose proof (strictly_increasing_tail _ _ Hinc) as Htail.
    pose proof (strictly_increasing_above e (es ++ [b]) b Htail) as Heb.
    change (count_between a e scores
            + total_players (zip_with (λ a b, count_between a b scores)
                               (e :: es ++ [b]) (es ++ [b]))
            = count_between a b scores).
    rewrite (IH e Htail).
    rewrite (count_between_split a e b); [done| |].
    + assert (a < e)%Z; [|lia]. apply Hae. left.
    + assert (e < b)%Z; [|lia]. apply Heb. apply elem_of_app. right. left.
Qed.

(** X11: a score below the first lower bound gets no bin and is in no
    count: the total under the histogram is the number of scores at or
    above the first bound, not the number of rows.  The scores are those
    of an int64 column whose maximum [m] is not the largest int64, so that
    the last edge is [m + 1]. *)
Theorem scores_below_first_bound_are_dropped
    chk lower_bounds bin_labels scores l0 m counts :
  strictly_increasing (lower_bounds ++ [Z.succ m]) = true →
  series_max scores = Some m →
  (INT64_MIN ≤ m < INT64_MAX)%Z →
  NoDup bin_labels →
  length bin_labels = length lower_bounds →
  lower_bounds !! 0 = Some l0 →
  rank_counts chk lower_bounds bin_labels scores = Ok counts →
  total_players counts = length (filter (λ x, l0 ≤ x)%Z scores)
  ∧ ∀ x, (x < l0)%Z →
         bin_code (Some <$> lower_bounds ++ [Z.succ m]) x = None.
Proof.
  intros Hinc Hmax Hrange Hlabels Hlen Hl0 Hrun.
  rewrite (rank_counts_between chk _ _ _ m Hinc Hmax Hrange Hlabels Hlen)
    in Hrun.
  injection Hrun as <-.
  destruct lower_bounds as [|l lower_bounds]; [done|]. simpl in Hl0.
  injection Hl0 as ->. split.
  - cbn [app tail]. rewrite count_between_telescope by done.
    unfold count_between. destruct (series_max_spec _ _ Hmax) as [_ Hle].
    clear -Hle. induction scores as [|x scores IH]; [done|].
    rewrite !filter_cons.
    assert (x ≤ m)%Z by (apply Hle; left).
    assert (length (filter (λ x, l0 ≤ x < Z.succ m)%Z scores)
            = length (filter (λ x, l0 ≤ x)%Z scores)) as IH'
      by (apply IH; intros y Hy; apply Hle; by right).
    repeat case_decide; simpl; lia.
  - intros x Hx.
    destruct (bin_code (Some <$> (l0 :: lower_bounds) ++ [Z.succ m]) x)
      as [i|] eqn:Hc; [|done].
    apply bin_code_interval in Hc as (a & b & Ha & _ & Hax & _); [|done].
    destruct i as [|i]; simpl in Ha; [simplify_eq; lia|].
    apply list_elem_of_lookup_2 in Ha.
    pose proof (strictly_increasing_above l0 _ a Hinc Ha). lia.
Qed.

(** *** A higher score is never in a lower bin *)

Lemma strictly_increasing_lookup es i j a b :
  strictly_increasing es = true →
  es !! i = Some a → es !! j = Some b → i < j → (a < b)%Z.
Proof.
  revert i j. induction es as [|e es IH]; intros i j Hinc Ha Hb Hij; [done|].
  destruct j as [|j]; [lia|]. simpl in Hb.
  destruct i as [|i]; simpl in Ha.
  - simplify_eq. apply (strictly_increasing_above a es b Hinc).
    by eapply list_elem_of_lookup_2.
  - apply (IH i j); [by eapply strictly_increasing_tail | done | done | lia].
Qed.

(** X12: along increasing edges the bins keep the order of the scores: of
    two scores that get a bin, the higher one is in the same bin or in a
    later one. *)
Theorem bin_code_is_monotone es x y i j :
  strictly_increasing es = true →
  (x ≤ y)%Z →
  bin_code (Some <$> es) x = Some i →
  bin_code (Some <$> es) y = Some j →
  i ≤ j.
Proof.
  intros Hinc Hxy Hx Hy.
  apply bin_code_interval in Hx as (a & b & Ha & Hb & Hax & Hxb); [|done].
  apply bin_code_interval in Hy as (c & d & Hc & Hd & Hcy & Hyd); [|done].
  destruct (decide (i ≤ j)) as [|Hlt]; [done|]. exfalso.
  assert (d ≤ a)%Z; [|lia].
  destruct (decide (S j = i)) as [<- | Hne]; [by simplify_eq|].
  pose proof (strictly_increasing_lookup es (S j) i d a Hinc Hd Ha). lia.
Qed.

(** *** The two plots agree *)


(** *** The cumulative top percentage *)

Lemma line_percentage_le a b total :
  0 < total → a ≤ b →
  np_le (line_percentage a total) (line_percentage b total).
Proof.
  intros Ht Hab. rewrite !line_percentage_fin by done. simpl.
  apply Qcmult_le_mono_nonneg_r.
  { rewrite <- Z2Qc_inj_0. by apply (proj1 (Z2Qc_inj_le 0 100)). }
  apply Qcmult_le_mono_nonneg_r.
  - apply Qclt_le_weak, Qcinv_pos. unfold Qc_of_nat.
    rewrite <- Z2Qc_inj_0. apply (proj1 (Z2Qc_inj_lt _ _)). lia.
  - unfold Qc_of_nat. apply (proj1 (Z2Qc_inj_le _ _)). lia.
Qed.

Lemma suffix_counts_bounded counts :
  Forall (λ s, s ≤ total_players counts) (rev (cumsum (rev counts))).
Proof.
  induction counts as [|c counts IH]; [constructor|].
  rewrite rev_cumsum_rev_cons. constructor; [simpl; lia|].
  eapply Forall_impl; [exact IH|]. intros s Hs. simpl in *. lia.
Qed.

(** X14: with somebody counted, the cumulative top percentage of the
    first division is 100, and from one division to the next it never
    grows. *)
Theorem cumulative_top_falls_from_100 counts :
  0 < total_players counts →
  head (cumulative_top_percentage counts) = Some (Fin (Qc_of_Z 100))
  ∧ StronglySorted (λ a b, np_le b a) (cumulative_top_percentage counts).
Proof.
  intros Ht. unfold cumulative_top_percentage.
  change (λ s, np_mul (np_truediv s (total_players counts)) 100)
    with (λ s, line_percentage s (total_players counts)).
  split.
  - destruct counts as [|c counts]; [simpl in Ht; lia|].
    rewrite rev_cumsum_rev_cons. cbn [fmap list_fmap head].
    change (c + total_players counts) with (total_players (c :: counts)).
    rewrite line_percentage_fin by done. f_equal. apply (f_equal Fin).
    field. by apply Qc_of_nat_pos.
  - generalize (total_players counts) Ht. intros total Htotal. clear Ht.
    induction counts as [|c counts IH]; [constructor|].
    rewrite rev_cumsum_rev_cons, fmap_cons. constructor; [exact IH|].
    apply Forall_fmap. eapply Forall_impl; [apply suffix_counts_bounded|].
    intros s Hs. cbn beta in *. apply line_percentage_le; [done | lia].
Qed.

(** *** The plotted line *)

Lemma indicator_absent (x : Z) keys :
  x ∉ keys →
  total_players ((λ k, if decide (x = k) then 1 else 0) <$> keys) = 0.
Proof.
  induction keys as [|k keys IH]; [done|]. intros Hx.
  apply not_elem_of_cons in Hx as [Hne Hx].
  rewrite fmap_cons. cbn [total_players foldr].
  change (foldr Nat.add 0 ?l) with (total_players l).
  rewrite decide_False by done. simpl. by apply IH.
Qed.

Lemma indicator_present (x : Z) keys :
  NoDup keys → x ∈ keys →
  total_players ((λ k, if decide (x = k) then 1 else 0) <$> keys) = 1.
Proof.
  induction 1 as [|k keys Hk Hnd IH]; [by intros ?%elem_of_nil|]. intros Hx.
  rewrite fmap_cons.
  change (total_players (?a :: ?l)) with (a + total_players l).
  destruct (decide (x = k)) as [-> | Hne].
  - by rewrite indicator_absent.
  - apply elem_of_cons in Hx as [? | Hx]; [done|]. by rewrite IH.
Qed.

Lemma occurrences_sum (keys scores : list Z) :
  NoDup keys →
  (∀ x, x ∈ scores → x ∈ keys) →
  total_players ((λ k, length (filter (λ y, y = k) scores)) <$> keys)
  = length scores.
Proof.
  intros Hnd. induction scores as [|x scores IH]; intros Hall.
  - apply total_players_zeros.
  - rewrite (Forall_fmap_ext_1 _
               (λ k, (if decide (x = k) then 1 else 0)
                     + length (filter (λ y, y = k) scores))).
    + rewrite total_players_sum, indicator_present, IH; [done| |done|].
      * intros y Hy. apply Hall. by right.
      * apply Hall. by left.
    + apply Forall_forall. intros k _. rewrite filter_cons.
      by destruct (decide (x = k)).
Qed.

Lemma sorted_distinct_is_strict (l : list Z) :
  StronglySorted Z.le l → NoDup l → StronglySorted Z.lt l.
Proof.
  induction 1 as [|a l Hsorted IH Hall]; intros Hnd; constructor.
  - apply IH. by apply NoDup_cons in Hnd as [_ ?].
  - apply NoDup_cons in Hnd as [Ha _].
    apply Forall_forall. intros b Hb.
    pose proof (proj1 (Forall_forall _ _) Hall b Hb).
    assert (a ≠ b) by (by intros ->). lia.
Qed.

Lemma score_counts_keys scores :
  (score_counts scores).*1 = merge_sort Z.le (remove_dups scores).
Proof.
  unfold score_counts. rewrite <- list_fmap_compose.
  rewrite <- (list_fmap_id (merge_sort Z.le (remove_dups scores))) at 2.
  by apply Forall_fmap_ext_1, Forall_forall.
Qed.

Lemma score_counts_facts scores :
  StronglySorted Z.lt (score_counts scores).*1
  ∧ (∀ x, x ∈ (score_counts scores).*1 ↔ x ∈ scores)
  ∧ Forall (λ p, p.2 = length (filter (λ y, y = p.1) scores) ∧ 0 < p.2)
      (score_counts scores)
  ∧ total_players (score_counts scores).*2 = length scores.
Proof.
  pose proof (merge_sort_Permutation Z.le (remove_dups scores)) as Hperm.
  assert (∀ x, x ∈ merge_sort Z.le (remove_dups scores) ↔ x ∈ scores) as Hin.
  { intros x. by rewrite Hperm, elem_of_remove_dups. }
  assert (NoDup (merge_sort Z.le (remove_dups scores))) as Hnd.
  { rewrite Hperm. apply NoDup_remove_dups. }
  rewrite score_counts_keys. split; [|split; [|split]].
  - apply sorted_distinct_is_strict; [|done].
    apply StronglySorted_merge_sort; apply _.
  - done.
  - unfold score_counts. apply Forall_fmap, Forall_forall. intros x Hx. simpl.
    split; [done|]. apply Hin in Hx.
    clear -Hx. induction scores as [|y scores IH]; [by inversion Hx|].
    rewrite filter_cons. destruct (decide (y = x)); [simpl; lia|].
    apply elem_of_cons in Hx as [-> | Hx]; [done | by apply IH].
  - unfold score_counts. rewrite <- list_fmap_compose.
    apply (occurrences_sum _ scores Hnd). intros x. apply Hin.
Qed.

(** X15: the line that is plotted has one point for each score that
    occurs, from left to right in strictly increasing order; the height of
    a point is the number of rows with that score, never 0, and the
    heights of all points add up to the number of rows. *)
Theorem score_counts_spec scores :
  StronglySorted Z.lt (score_counts scores).*1
  ∧ (∀ x, x ∈ (score_counts scores).*1 ↔ x ∈ scores)
  ∧ Forall (λ p, p.2 = length (filter (λ y, y = p.1) scores) ∧ 0 < p.2)
      (score_counts scores)
  ∧ total_players (score_counts scores).*2 = length scores.
Proof. apply score_counts_facts. Qed.

(** *** The texts of the divisions *)

Lemma foldl_max_ge acc l : acc ≤ foldl Nat.max acc l.
Proof.
  revert acc. induction l as [|x l IH]; intros acc; simpl; [done|].
  specialize (IH (acc `max` x)). lia.
Qed.

Lemma line_plot_texts_ok chk combined_df ds :
  combined_df ≠ [] →
  rivals2_line_plot chk combined_df = Ok ds →
  ∃ top, rivals2_line_plot_texts chk combined_df = Ok (ds, top) ∧ 0 < top.
Proof.
  intros Hdf Hrun. rename combined_df into df.
  unfold rivals2_line_plot_texts. rewrite Hrun.
  destruct (score_counts_facts (score <$> df)) as (_ & Hin & Hpos & _).
  destruct (score_counts (score <$> df)) as [|[x n] sc] eqn:Hsc.
  - destruct df as [|e df]; [done|]. exfalso.
    assert (score e ∈ ([] : list (Z * nat)).*1) as Habs
      by (apply Hin; rewrite fmap_cons; left).
    by apply elem_of_nil in Habs.
  - simpl. eexists. split; [done|].
    apply Forall_cons in Hpos as [[_ Hn] _]. simpl in Hn.
    eapply Nat.lt_le_trans; [exact Hn | apply foldl_max_ge].
Qed.

(** X16: [rivals2_line_plot] cannot place its texts on an empty data
    frame: where [pd.cut] has let the NaN edge pass, [max(y)] of the
    empty line raises [ValueError].  On any other data frame [max(y)] is
    there, and positive, whenever the statistics are. *)
Theorem line_plot_texts_need_a_player :
  (∀ chk, rivals2_line_plot_texts chk [] = Raise ValueError)
  ∧ (∀ chk combined_df ds,
       combined_df ≠ [] →
       rivals2_line_plot chk combined_df = Ok ds →
       ∃ top, rivals2_line_plot_texts chk combined_df = Ok (ds, top) ∧ 0 < top).
Proof. split; [by intros [] | apply line_plot_texts_ok]. Qed.

End StatsMore.

(** ** The table and the program *)

Section Leaderboard.

Local Open Scope nat_scope.

Lemma NoDup_fmap_elem {A B} (f : A → B) (l : list A) a b :
  NoDup (f <$> l) → a ∈ l → b ∈ l → f a = f b → a = b.
Proof.
  induction l as [|x l IH]; [by intros _ ?%elem_of_nil|].
  rewrite fmap_cons. intros [Hx Hnd]%NoDup_cons Ha Hb Hab.
  apply elem_of_cons in Ha as [-> | Ha]; apply elem_of_cons in Hb as [-> | Hb].
  - done.
  - exfalso. apply Hx. rewrite Hab. by apply list_elem_of_fmap_2.
  - exfalso. apply Hx. rewrite <- Hab. by apply list_elem_of_fmap_2.
  - by apply IH.
Qed.

(** Two lists in the order of their ranks, with the same rows, no rank
    twice, are the same list. *)
Lemma sorted_rows_unique (l1 l2 : list row) :
  l1 ≡ₚ l2 →
  StronglySorted (λ a b, row_rank a ≤ row_rank b)%Z l1 →
  StronglySorted (λ a b, row_rank a ≤ row_rank b)%Z l2 →
  NoDup (row_rank <$> l1) →
  l1 = l2.
Proof.
  revert l2. induction l1 as [|a l1 IH]; intros l2 Hperm Hs1 Hs2 Hnd.
  - by apply Permutation_nil_l in Hperm.
  - destruct l2 as [|b l2]; [by apply Permutation_nil_r in Hperm|].
    apply StronglySorted_inv in Hs1 as [Hs1 Ha].
    apply StronglySorted_inv in Hs2 as [Hs2 Hb].
    assert (a = b) as <-.
    { assert (b ∈ a :: l1) as Hbin by (rewrite Hperm; left).
      assert (a ∈ b :: l2) as Hain by (rewrite <- Hperm; left).
      apply (NoDup_fmap_elem row_rank (a :: l1)); [done | by left | done |].
      apply elem_of_cons in Hbin as [-> | Hbin]; [done|].
      apply elem_of_cons in Hain as [-> | Hain]; [done|].
      pose proof (proj1 (Forall_forall _ _) Ha b Hbin) as H1.
      pose proof (proj1 (Forall_forall _ _) Hb a Hain) as H2.
      cbn beta in H1, H2. lia. }
    f_equal. apply IH; [by eapply Permutation_cons_inv | done | done |].
    rewrite fmap_cons in Hnd. by apply NoDup_cons in Hnd as [_ ?].
Qed.

Lemma generate_leaderboard_unique (sort1 sort2 : row_sort) df1 df2 :
  df1 ≡ₚ df2 →
  NoDup (rank <$> df1) →
  generate_leaderboard sort1 df1 = generate_leaderboard sort2 df2.
Proof.
  intros Hperm Hnd.
  assert (sort1 (select_rename <$> df1) = sort2 (select_rename <$> df2)) as Heq.
  { apply sorted_rows_unique.
    - by rewrite !sort_rows_perm, Hperm.
    - apply sort_rows_sorted.
    - apply sort_rows_sorted.
    - rewrite sort_rows_perm, <- list_fmap_compose. exact Hnd. }
  unfold generate_leaderboard. by rewrite Heq.
Qed.

(** X17: when no rank occurs twice, the table and the file written do
    not depend on the order of the rows in the data frame, nor on how the
    sort treats ties: two data frames with the same rows give the same
    table under any two sorts. *)
Theorem leaderboard_depends_on_rows_only (sort1 sort2 : row_sort) df1 df2 :
  df1 ≡ₚ df2 →
  NoDup (rank <$> df1) →
  generate_leaderboard sort1 df1 = generate_leaderboard sort2 df2.
Proof. apply generate_leaderboard_unique. Qed.

(** *** The maximum does not depend on the order *)

Lemma series_max_perm l1 l2 m :
  l1 ≡ₚ l2 → series_max l1 = Some m → series_max l2 = Some m.
Proof.
  intros Hperm Hmax.
  destruct (series_max_spec _ _ Hmax) as [Hin Hle].
  destruct l2 as [|x l2]; [apply Permutation_nil_r in Hperm; by subst|].
  destruct (series_max (x :: l2)) as [m'|] eqn:Hmax'; [|done].
  destruct (series_max_spec _ _ Hmax') as [Hin' Hle'].
  f_equal.
  assert (m' ∈ l1) as H1 by (by rewrite Hperm).
  assert (m ∈ x :: l2) as H2 by (by rewrite <- Hperm).
  specialize (Hle _ H1). specialize (Hle' _ H2). lia.
Qed.

Variable server : string → response.
Variable listdir : dir_enum.

(** X18: from an empty cache, against a server with a complete
    leaderboard (pages with at least one entry each, saved under file
    names of their own that their ranges make) whose top score is 1500 or
    more, short of the largest int64, and with a canvas on which the
    pictures of this data frame come about, [main] downloads every page,
    pickles the data frame, gets through both plots and writes the table:
    every player of every page once, under the header [rank,name,score],
    in the order of the ranks.  When no rank occurs twice the file is the
    same whatever order [os.listdir] and the sort choose. *)
Theorem main_writes_the_whole_leaderboard
    cv chk (sort_values : row_sort) fuel w ps m :
  let name := λ p, Str.strip (range_start p) +:+ "-"
                   +:+ Str.strip (range_end p) +:+ ".xml" in
  df_cache w = None →
  xml_cache w = None ∨ xml_cache w = Some ∅ →
  page_chain server (Some first_url) ps None →
  length ps ≤ fuel →
  Forall (λ p, file_name_ok (name p) = true) ps →
  Forall (λ p, rows p ≠ []) ps →
  NoDup (name <$> ps) →
  series_max (score <$> concat (rows <$> ps)) = Some m →
  (1500 ≤ m < INT64_MAX)%Z →
  (∀ df, df ≡ₚ concat (rows <$> ps) → drawn cv chk df) →
  ∃ file df,
    main cv chk sort_values server listdir fuel w =
      (Ok file, {| xml_cache := Some (save_pages ∅ ps);
                   df_cache := Some df;
                   requests := requests w ++ locators (Some first_url) ps |})
    ∧ csv_header file = ["rank"; "name"; "score"]%string
    ∧ csv_lines file ≡ₚ select_rename <$> concat (rows <$> ps)
    ∧ StronglySorted (λ a b, row_rank a ≤ row_rank b)%Z (csv_lines file)
    ∧ (NoDup (rank <$> concat (rows <$> ps)) →
       csv_lines file = merge_sort_rows (select_rename <$> concat (rows <$> ps))).
Proof.
  intros name Hdf Hcold Hchain Hfuel Hnames Hrows Hnd Hmax [Hm Htop] Hcv.
  destruct (get_leaderboard_df_cold server listdir fuel w ps
              Hdf Hcold Hchain Hfuel Hnames Hrows Hnd) as (df & Hrun & Hperm).
  assert (series_max (score <$> df) = Some m) as Hmax'.
  { eapply series_max_perm; [|exact Hmax]. by rewrite Hperm. }
  assert (INT64_MIN ≤ m < INT64_MAX)%Z as Hrange by (unfold INT64_MIN; lia).
  assert (df ≠ []) as Hne by (by intros ->).
  destruct (rank_counts_outcome chk plot_lower_bounds plot_labels (score <$> df))
    as [[pc Hpc] | Hbad].
  2:{ rewrite (rank_counts_between chk plot_lower_bounds plot_labels _ m
                 (plot_bounds_increase m Hm) Hmax' Hrange) in Hbad;
        [done | apply (bool_decide_unpack _); by vm_compute | done]. }
  destruct (rank_counts_outcome chk line_lower_bounds line_labels (score <$> df))
    as [[lc Hlc] | Hbad].
  2:{ rewrite (rank_counts_between chk line_lower_bounds line_labels _ m
                 (line_bounds_increase m Hm) Hmax' Hrange) in Hbad;
        [done | apply (bool_decide_unpack _); by vm_compute | done]. }
  assert (rivals2_plot chk df = Ok (bars plot_labels pc)) as Hplot
    by (unfold rivals2_plot, rivals2_plot_with; by rewrite Hpc).
  assert (rivals2_line_plot chk df = Ok (divisions line_labels lc)) as Hline
    by (unfold rivals2_line_plot, rivals2_line_plot_with; by rewrite Hlc).
  destruct (line_plot_texts_ok chk df _ Hne Hline) as (top & Htexts & _).
  destruct (Hcv df Hperm _ _ _ Hplot Htexts) as (Hd1 & Hd2 & Hd3).
  assert (py_max (score_counts (score <$> df)).*2 = Ok top) as Htop'.
  { unfold rivals2_line_plot_texts in Htexts. rewrite Hline in Htexts.
    destruct (py_max _) as [top'| |]; by simplify_eq. }
  exists (generate_leaderboard sort_values df).2, df.
  split; [|split; [|split; [|split]]].
  - unfold main, bind, lift, ret, draw.
    by rewrite Hrun, Hplot, Hd1, Hline, Hd2, Htop', Hd3.
  - done.
  - simpl. by rewrite sort_rows_perm, Hperm.
  - apply sort_rows_sorted.
  - intros Hranks. simpl.
    apply (f_equal fst (generate_leaderboard_unique sort_values merge_sort_rows
                          df (concat (rows <$> ps)) Hperm
                          ltac:(by rewrite Hperm))).
Qed.

(** X19: a leaderboard whose top score is below 1500 stops [main] for
    good.  On the first run, the pages (with at least one entry each,
    saved under file names of their own that their ranges make) are
    downloaded and the data frame is pickled, then [rivals2_plot] raises
    [ValueError] before anything is drawn and no table is written; every
    later run, on any canvas, reads the pickle, asks the server nothing
    and raises again. *)
Theorem main_fails_for_good_below_1500
    cv chk (sort_values : row_sort) fuel w ps m :
  let name := λ p, Str.strip (range_start p) +:+ "-"
                   +:+ Str.strip (range_end p) +:+ ".xml" in
  df_cache w = None →
  xml_cache w = None ∨ xml_cache w = Some ∅ →
  page_chain server (Some first_url) ps None →
  length ps ≤ fuel →
  Forall (λ p, file_name_ok (name p) = true) ps →
  Forall (λ p, rows p ≠ []) ps →
  NoDup (name <$> ps) →
  series_max (score <$> concat (rows <$> ps)) = Some m →
  (INT64_MIN ≤ m < 1500)%Z →
  ∃ w1 df,
    main cv chk sort_values server listdir fuel w = (Raise ValueError, w1)
    ∧ df_cache w1 = Some df
    ∧ requests w1 = requests w ++ locators (Some first_url) ps
    ∧ ∀ cv' chk' (sort' : row_sort) (server' : string → response)
        (listdir' : dir_enum) fuel',
        main cv' chk' sort' server' listdir' fuel' w1 = (Raise ValueError, w1).
Proof.
  intros name Hdf Hcold Hchain Hfuel Hnames Hrows Hnd Hmax Hm.
  destruct (get_leaderboard_df_cold server listdir fuel w ps
              Hdf Hcold Hchain Hfuel Hnames Hrows Hnd) as (df & Hrun & Hperm).
  assert (series_max (score <$> df) = Some m) as Hmax'.
  { eapply series_max_perm; [|exact Hmax]. by rewrite Hperm. }
  assert (∀ chk', rivals2_plot chk' df = Raise ValueError) as Hplot.
  { intros chk'. unfold rivals2_plot, rivals2_plot_with.
    by rewrite (proj1 (low_maximum_is_rejected chk' _ m Hmax' Hm)). }
  exists {| xml_cache := Some (save_pages ∅ ps); df_cache := Some df;
            requests := requests w ++ locators (Some first_url) ps |}, df.
  split; [|split; [done|split; [done|]]].
  - unfold main, bind, lift. by rewrite Hrun, Hplot.
  - intros cv' chk' sort' server' listdir' fuel'.
    unfold main, bind, lift, get_leaderboard_df. simpl. by rewrite Hplot.
Qed.

(** X21: the table is the last thing [main] does.  When one of the
    pictures does not come about, [main] raises what the drawing call
    raised; the data frame is in the world [get_leaderboard_df] left, and
    no table is written. *)
Theorem failed_drawing_leaves_no_table
    cv chk (sort_values : row_sort) fuel w df w' bs ds top :
  get_leaderboard_df server listdir fuel w = (Ok df, w') →
  rivals2_plot chk df = Ok bs →
  rivals2_line_plot_texts chk df = Ok (ds, top) →
  cv (Histogram bs) = false
  ∨ cv (Line (score_counts (score <$> df))) = false
  ∨ cv (Divisions ds top) = false →
  main cv chk sort_values server listdir fuel w = (Raise DrawingError, w').
Proof.
  intros Hrun Hplot Htexts Hfail.
  unfold rivals2_line_plot_texts in Htexts.
  destruct (rivals2_line_plot chk df) as [ds'| |] eqn:Hline; [|done..].
  destruct (py_max _) as [top'| |] eqn:Htop; simplify_eq.
  unfold main, bind, lift, ret, draw. rewrite Hrun, Hplot.
  destruct (cv (Histogram bs)); [|done]. rewrite Hline.
  destruct (cv (Line _)); [|done]. rewrite Htop.
  destruct (cv (Divisions ds top)); [|done].
  by destruct Hfail as [? | [? | ?]].
Qed.

End Leaderboard.

(** *** Examples of the statistics, the table and the program *)

(** Scores 0, 399, 400, 1500 under the bounds 0, 400, 1500. *)
Lemma rank_counts_are_interval_counts_witness :
  rank_counts MonotonicIndex [0; 400; 1500] ["A"; "B"; "C"]%string
    [0; 399; 400; 1500]
  = Ok (zip_with (λ a b, count_between a b [0; 399; 400; 1500])
          [0; 400; 1500; 1501] [400; 1500; 1501]).
Proof.
  apply (rank_counts_are_interval_counts MonotonicIndex [0; 400; 1500]
           ["A"; "B"; "C"]%string [0; 399; 400; 1500] 1500).
  - reflexivity.
  - unfold INT64_MIN, INT64_MAX. lia.
  - reflexivity.
  - apply (bool_decide_unpack _). by vm_compute.
  - reflexivity.
Defined.

(** A score of -5 beside 10 and 1600: two players under the histogram. *)
Lemma scores_below_first_bound_are_dropped_witness :
  total_players [1; 0; 0; 0; 0; 0; 0; 0; 0; 0; 0; 0; 1]%nat
  = length (filter (λ x, 0 ≤ x) [-5; 10; 1600])
  ∧ ∀ x, x < 0 → bin_code (Some <$> plot_lower_bounds ++ [Z.succ 1600]) x = None.
Proof.
  apply (scores_below_first_bound_are_dropped DiffNotNegative plot_lower_bounds
           plot_labels [-5; 10; 1600] 0 1600).
  - reflexivity.
  - reflexivity.
  - unfold INT64_MIN, INT64_MAX. lia.
  - apply (bool_decide_unpack _). by vm_compute.
  - reflexivity.
  - reflexivity.
  - by vm_compute.
Defined.

(** 399 is in the first bin, 400 in the second. *)
Lemma bin_code_is_monotone_witness :
  bin_code (Some <$> [0; 400; 1500; 1501]) 399 = Some 0%nat
  ∧ bin_code (Some <$> [0; 400; 1500; 1501]) 400 = Some 1%nat
  ∧ (0 ≤ 1)%nat.
Proof.
  split; [reflexivity|]. split; [reflexivity|].
  apply (bin_code_is_monotone [0; 400; 1500; 1501] 399 400 0 1).
  - reflexivity.
  - lia.
  - reflexivity.
  - reflexivity.
Defined.


(** Counts 5, 3, 2. *)
Lemma cumulative_top_falls_from_100_witness :
  head (cumulative_top_percentage [5; 3; 2]%nat) = Some (Fin (Qc_of_Z 100))
  ∧ StronglySorted (λ a b, np_le b a) (cumulative_top_percentage [5; 3; 2]%nat).
Proof.
  apply (cumulative_top_falls_from_100 [5; 3; 2]%nat). simpl. lia.
Defined.

(** The two pages in either order give one table. *)
Lemma leaderboard_depends_on_rows_only_witness :
  generate_leaderboard merge_sort_rows (rows Example.page1 ++ rows Example.page2)
  = generate_leaderboard merge_sort_rows (rows Example.page2 ++ rows Example.page1).
Proof.
  apply (leaderboard_depends_on_rows_only merge_sort_rows merge_sort_rows
           (rows Example.page1 ++ rows Example.page2)
           (rows Example.page2 ++ rows Example.page1)).
  - apply Permutation_app_comm.
  - apply (bool_decide_unpack _). by vm_compute.
Defined.

Lemma ladder_chain :
  page_chain Ladder.server (Some first_url) [Ladder.page1; Ladder.page2] None.
Proof.
  eapply chain_cons; [by vm_compute|].
  eapply (chain_cons _ Ladder.second_url); [by vm_compute|].
  apply chain_nil.
Qed.

(** The ladder, from nothing to the table. *)
Lemma main_writes_the_whole_leaderboard_witness :
  ∃ file df,
    main Ladder.easel MonotonicIndex merge_sort_rows Ladder.server storage_order 2
      Example.fresh
    = (Ok file, {| xml_cache := Some (save_pages ∅ [Ladder.page1; Ladder.page2]);
                   df_cache := Some df;
                   requests := [first_url; Ladder.second_url] |})
    ∧ csv_header file = ["rank"; "name"; "score"]%string
    ∧ csv_lines file
      ≡ₚ select_rename <$> concat (rows <$> [Ladder.page1; Ladder.page2])
    ∧ StronglySorted (λ a b, row_rank a ≤ row_rank b) (csv_lines file)
    ∧ (NoDup (rank <$> concat (rows <$> [Ladder.page1; Ladder.page2])) →
       csv_lines file
       = merge_sort_rows
           (select_rename <$> concat (rows <$> [Ladder.page1; Ladder.page2]))).
Proof.
  apply (main_writes_the_whole_leaderboard Ladder.server storage_order
           Ladder.easel MonotonicIndex merge_sort_rows 2 Example.fresh
           [Ladder.page1; Ladder.page2] 1612).
  - reflexivity.
  - left; reflexivity.
  - exact ladder_chain.
  - simpl; lia.
  - repeat constructor.
  - repeat constructor; discriminate.
  - apply (bool_decide_unpack _). by vm_compute.
  - reflexivity.
  - unfold INT64_MAX. lia.
  - intros df _ bs ds top _ _. repeat split; reflexivity.
Defined.

(** The small leaderboard has no Master: no table, on any run. *)
Lemma main_fails_for_good_below_1500_witness :
  ∃ w1 df,
    main Ladder.easel MonotonicIndex merge_sort_rows Example.healthy
      storage_order 2 Example.fresh = (Raise ValueError, w1)
    ∧ df_cache w1 = Some df
    ∧ requests w1 = [first_url; Example.second_url]
    ∧ ∀ cv' chk' (sort' : row_sort) (server' : string → response)
        (listdir' : dir_enum) fuel',
        main cv' chk' sort' server' listdir' fuel' w1 = (Raise ValueError, w1).
Proof.
  apply (main_fails_for_good_below_1500 Example.healthy storage_order
           Ladder.easel MonotonicIndex merge_sort_rows 2 Example.fresh
           [Example.page1; Example.page2] 30).
  - reflexivity.
  - left; reflexivity.
  - exact healthy_chain.
  - simpl; lia.
  - repeat constructor.
  - repeat constructor; discriminate.
  - apply (bool_decide_unpack _). by vm_compute.
  - reflexivity.
  - unfold INT64_MIN. lia.
Defined.

(** A page with the range 1/2 to 3: [open] looks for a directory [1]. *)
Lemma slash_in_range_stops_download_witness :
  download_xml Sample.slashed 1 Example.empty_dir
  = (Raise FileNotFoundError,
     {| xml_cache := Some ∅; df_cache := None; requests := [first_url] |}).
Proof.
  assert (download_xml Sample.slashed 1 Example.empty_dir
          = (Raise (match (∅ : gmap string xml_raw) !! "1"%string with
                    | Some _ => NotADirectoryError
                    | None => FileNotFoundError
                    end),
             {| xml_cache := Some ∅; df_cache := None;
                requests := [first_url] |})) as Hrun.
  { apply (slash_in_range_stops_download Sample.slashed 0 200
             (page_doc Sample.page_slash) "1/2" "3" "1" ["2-3.xml"]
             Example.empty_dir ∅).
    - reflexivity.
    - reflexivity.
    - reflexivity.
    - reflexivity.
    - discriminate.
    - repeat split; discriminate.
    - simpl. unfold NAME_MAX. lia.
    - apply Nat.ltb_lt. by vm_compute.
    - reflexivity. }
  rewrite lookup_empty in Hrun. exact Hrun.
Defined.

Lemma ladder_first_run :
  get_leaderboard_df Ladder.server storage_order 2 Example.fresh
  = (Ok (rows Ladder.page2 ++ rows Ladder.page1),
     {| xml_cache := Some (save_pages ∅ [Ladder.page1; Ladder.page2]);
        df_cache := Some (rows Ladder.page2 ++ rows Ladder.page1);
        requests := [first_url; Ladder.second_url] |}).
Proof. by vm_compute. Qed.

(** The ladder on a canvas without room for the axes: the pages and the
    pickle are there, the table is not. *)
Lemma failed_drawing_leaves_no_table_witness :
  main Ladder.cramped MonotonicIndex merge_sort_rows Ladder.server
    storage_order 2 Example.fresh
  = (Raise DrawingError,
     {| xml_cache := Some (save_pages ∅ [Ladder.page1; Ladder.page2]);
        df_cache := Some (rows Ladder.page2 ++ rows Ladder.page1);
        requests := [first_url; Ladder.second_url] |}).
Proof.
  eapply (failed_drawing_leaves_no_table Ladder.server storage_order
            Ladder.cramped MonotonicIndex merge_sort_rows 2 Example.fresh).
  - exact ladder_first_run.
  - reflexivity.
  - reflexivity.
  - right; right; reflexivity.
Defined.
